(** * Room chat backend: validation, rate limiting and socket handlers

    A shallow embedding of the chat part of the Tic-Tac-Toe backend:

    - [src/middleware/validation.js]  (class [ValidationMiddleware]),
    - [src/services/chatService.js]   (class [ChatService]),
    - [src/models/chatModel.js]       ([saveMessage], [getMessagesByRoom]),
    - [src/socket/chatEvents.js]      (class [ChatEvents]),
    - [src/socket/socketHandler.js]   (class [SocketHandler]),
    - [src/controllers/chatController.js] ([postMessage]).

    JavaScript values are a small tagged union, strings are sequences of
    UTF-16 code units, the [Map] of rate-limit windows is a [gmap], and the
    handlers are state transformers over a [World] holding the clock, the
    message table, the Socket.IO room membership and everything emitted so
    far. *)

From Stdlib Require Import ZArith NArith Ascii String List Bool Lia DecimalString.
From stdpp Require Import base option list gmap.

Local Open Scope bool_scope.

(** ** JavaScript strings *)

Module JsString.

(** A JavaScript string is a sequence of 16-bit code units; [length],
    [trim] and [replace] all work on code units. *)
Abbreviation code_unit := N (only parsing).
Abbreviation jsstring := (list N) (only parsing).

(** Socket identifiers and room names are strings. *)
Abbreviation SocketId := (list N) (only parsing).
Abbreviation Room := (list N) (only parsing).

(** A literal of the source, all of whose characters are ASCII. *)
Definition str (s : string) : jsstring :=
  List.map N_of_ascii (list_ascii_of_string s).

(** [WhiteSpace] and [LineTerminator] of ECMA-262, the code units
    [String.prototype.trim] strips. *)
Definition is_whitespace (u : code_unit) : bool :=
  ((9 <=? u) && (u <=? 13))%N
  || (u =? 32)%N || (u =? 160)%N || (u =? 5760)%N
  || ((8192 <=? u) && (u <=? 8202))%N
  || (u =? 8232)%N || (u =? 8233)%N || (u =? 8239)%N || (u =? 8287)%N
  || (u =? 12288)%N || (u =? 65279)%N.

Fixpoint trimStart (s : jsstring) : jsstring :=
  match s with
  | [] => []
  | u :: s' => if is_whitespace u then trimStart s' else s
  end.

Definition trimEnd (s : jsstring) : jsstring := rev (trimStart (rev s)).

(** [s.trim()] *)
Definition trim (s : jsstring) : jsstring := trimEnd (trimStart s).

(** [s.replace(/c/g, r)] for a pattern that is the single code unit [c]. *)
Fixpoint replace_all (c : code_unit) (r : jsstring) (s : jsstring) : jsstring :=
  match s with
  | [] => []
  | u :: s' => (if (u =? c)%N then r else [u]) ++ replace_all c r s'
  end.

(** The six characters the sanitizer rewrites. *)
Definition amp : code_unit := 38%N.     (* & *)
Definition lt : code_unit := 60%N.      (* < *)
Definition gt : code_unit := 62%N.      (* > *)
Definition dquote : code_unit := 34%N.  (* double quote *)
Definition squote : code_unit := 39%N.  (* ' *)
Definition slash : code_unit := 47%N.   (* / *)

End JsString.
Export JsString.

(** ** JavaScript values *)

(** The values a handler can receive in a JSON payload or a query string.
    [JNum z] is a number without a fractional part: the double nearest to
    the integer [z], with [2^1024] and [-2^1024] standing for [Infinity] and
    [-Infinity] (zero has no sign here: nothing in this code tells [-0] from
    [0]).  [JObject] is an object or array and carries the text its
    [toString()] returns, or [None] when the object has no usable
    [toString], so that calling it, or turning the object into text,
    throws. *)
Inductive jsval :=
| JUndefined
| JNull
| JBool (b : bool)
| JNum (z : Z)
| JNaN
| JStr (s : jsstring)
| JObject (repr : option jsstring).

(** [Boolean(v)], the test behind [!v] and [if (v)]. *)
Definition truthy (v : jsval) : bool :=
  match v with
  | JUndefined | JNull | JNaN => false
  | JBool b => b
  | JNum z => negb (z =? 0)%Z
  | JStr s => match s with [] => false | _ => true end
  | JObject _ => true
  end.

(** *** Numbers *)

(** What stands for [Infinity]. *)
Definition infinity : Z := (2 ^ 1024)%Z.

(** The double nearest to an integer, ties going to the even mantissa of
    53 bits; beyond the largest double the answer is [Infinity]. *)
Definition to_double (z : Z) : Z :=
  let a := Z.abs z in
  if (a <? 2 ^ 53)%Z then z
  else
    let shift := (Z.log2 a - 52)%Z in
    let q := Z.shiftr a shift in
    let r := (a - Z.shiftl q shift)%Z in
    let half := Z.shiftl 1 (shift - 1) in
    let q' :=
      if (half <? r)%Z || ((r =? half)%Z && Z.odd q) then (q + 1)%Z else q in
    let v := Z.shiftl q' shift in
    (Z.sgn z * (if (infinity <=? v)%Z then infinity else v))%Z.

(** An integer in decimal digits. *)
Definition decimal (z : Z) : jsstring :=
  str (NilZero.string_of_int (Z.to_int z)).

(** The number with the fewest significant digits that still reads back
    as the double [a]: tried with [k] digits, then [k + 1], and so on; of
    two such numbers the nearer one, and the one with the even last digit
    when they are as near. *)
Fixpoint shortest_search (a n : Z) (fuel : nat) (k : Z) : Z :=
  match fuel with
  | O => a
  | S fuel' =>
      let p := (10 ^ (n - k))%Z in
      let s := (a / p)%Z in
      let c1 := (s * p)%Z in
      let c2 := (c1 + p)%Z in
      let ok1 := (to_double c1 =? a)%Z in
      let ok2 := (to_double c2 =? a)%Z in
      if ok1 && ok2 then
        if (a - c1 <? c2 - a)%Z then c1
        else if (c2 - a <? a - c1)%Z then c2
        else if Z.even s then c1 else c2
      else if ok1 then c1
      else if ok2 then c2
      else shortest_search a n fuel' (k + 1)%Z
  end.

Definition shortest (a : Z) : Z :=
  if (a <? 2 ^ 53)%Z then a
  else
    let n := Z.of_nat (length (decimal a)) in
    shortest_search a n (Z.to_nat n) 1%Z.

Fixpoint drop_zeros (s : jsstring) : jsstring :=
  match s with
  | 48%N :: s' => drop_zeros s'
  | _ => s
  end.

(** [Number.prototype.toString] and [String(n)] for a number without a
    fractional part: all the digits up to 21 of them, from there on the
    significant digits and an exponent, as in [1e+21]. *)
Definition number_to_string (z : Z) : jsstring :=
  let x := to_double z in
  let a := Z.abs x in
  let sign := if (x <? 0)%Z then str "-" else [] in
  if (infinity <=? a)%Z then sign ++ str "Infinity"
  else
    let digits := decimal (shortest a) in
    let n := Z.of_nat (length digits) in
    if (n <=? 21)%Z then sign ++ digits
    else
      let s := rev (drop_zeros (rev digits)) in
      sign
      ++ match s with
         | d :: _ :: _ => d :: 46%N :: tl s
         | _ => s
         end
      ++ str "e+" ++ decimal (n - 1).

(** [v.toString()] for a value that is neither [undefined] nor [null];
    [None] when the call throws. *)
Definition toString (v : jsval) : option jsstring :=
  match v with
  | JUndefined | JNull => None
  | JBool b => Some (str (if b then "true" else "false"))
  | JNum z => Some (number_to_string z)
  | JNaN => Some (str "NaN")
  | JStr s => Some s
  | JObject repr => repr
  end.

(** [String(v)], the conversion a template literal applies to each value
    it holds: [undefined] and [null] have a text, an object without a
    usable [toString] makes it throw. *)
Definition to_text (v : jsval) : option jsstring :=
  match v with
  | JUndefined => Some (str "undefined")
  | JNull => Some (str "null")
  | _ => toString v
  end.

(** *** [parseInt] *)

(** The value of a digit in the given radix (10 or 16). *)
Definition digit_value (radix : Z) (u : code_unit) : option Z :=
  let d :=
    if ((48 <=? u) && (u <=? 57))%N then Some (Z.of_N u - 48)%Z
    else if ((97 <=? u) && (u <=? 102))%N then Some (Z.of_N u - 87)%Z
    else if ((65 <=? u) && (u <=? 70))%N then Some (Z.of_N u - 55)%Z
    else None in
  match d with
  | Some n => if (n <? radix)%Z then Some n else None
  | None => None
  end.

(** Reads the longest prefix of digits; [acc] is [None] until a digit is
    seen. *)
Fixpoint parse_digits (radix : Z) (acc : option Z) (s : jsstring) : option Z :=
  match s with
  | [] => acc
  | u :: s' =>
      match digit_value radix u with
      | Some d =>
          parse_digits radix
            (Some (match acc with Some a => a * radix + d | None => d end)%Z) s'
      | None => acc
      end
  end.

(** [parseInt(s)] on a string, without a radix argument: leading white
    space is skipped, a sign is read, a [0x] or [0X] prefix selects base
    16, then the longest run of digits is read and the rest is ignored;
    the result is the double nearest to the integer that was read.
    [None] is [NaN]. *)
Definition parseInt_string (s : jsstring) : option Z :=
  let s1 := trimStart s in
  let '(sign, s2) :=
    match s1 with
    | 45%N :: r => ((-1)%Z, r)
    | 43%N :: r => (1%Z, r)
    | _ => (1%Z, s1)
    end in
  let '(radix, s3) :=
    match s2 with
    | 48%N :: 120%N :: r => (16%Z, r)
    | 48%N :: 88%N :: r => (16%Z, r)
    | _ => (10%Z, s2)
    end in
  match parse_digits radix None s3 with
  | Some n => Some (to_double (sign * n))
  | None => None
  end.

(** What evaluating an expression can do: return a value or throw. *)
Inductive Completion (A : Type) :=
| Normal (value : A)
| Abrupt.
Arguments Normal {A} value.
Arguments Abrupt {A}.

(** [parseInt(v)]: the argument is converted to a string first, which
    throws for an object without a usable [toString]; a number is read
    back from the text it is written as. *)
Definition parseInt (v : jsval) : Completion (option Z) :=
  match v with
  | JUndefined | JNull | JBool _ | JNaN => Normal None
  | JNum z => Normal (parseInt_string (number_to_string z))
  | JStr s => Normal (parseInt_string s)
  | JObject (Some repr) => Normal (parseInt_string repr)
  | JObject None => Abrupt
  end.

(** ** ValidationMiddleware *)

(** The [{ isValid, error, ... }] objects the validators return. *)
Inductive Validation (A : Type) :=
| IsValid (value : A)
| NotValid (error : string).
Arguments IsValid {A} value.
Arguments NotValid {A} error.

Definition isValid {A} (r : Validation A) : bool :=
  match r with IsValid _ => true | NotValid _ => false end.

Module ValidationMiddleware.

Local Open Scope string_scope.

Definition validateRoomId (roomId : jsval) : Validation unit :=
  if negb (truthy roomId) then NotValid "roomId is required"
  else match roomId with
       | JStr s =>
           if (length (trim s) =? 0)%nat then NotValid "roomId cannot be empty"
           else if (100 <? length s)%nat
                then NotValid "roomId too long (max 100 characters)"
                else IsValid tt
       | _ => NotValid "roomId must be a string"
       end.

Definition validateUserId (userId : jsval) : Validation unit :=
  if negb (truthy userId) then NotValid "userId is required"
  else match userId with
       | JStr s =>
           if (length (trim s) =? 0)%nat then NotValid "userId cannot be empty"
           else if (50 <? length s)%nat
                then NotValid "userId too long (max 50 characters)"
                else IsValid tt
       | _ => NotValid "userId must be a string"
       end.

(** The string branch of [sanitizeHtml]: six global replacements, one
    after the other, [&] first. *)
Definition sanitize_string (input : jsstring) : jsstring :=
  replace_all slash (str "&#x2F;")
    (replace_all squote (str "&#x27;")
      (replace_all dquote (str "&quot;")
        (replace_all gt (str "&gt;")
          (replace_all lt (str "&lt;")
            (replace_all amp (str "&amp;") input))))).

Definition sanitizeHtml (input : jsval) : jsval :=
  match input with
  | JStr s => JStr (sanitize_string s)
  | _ => input
  end.

(** On success the value is [sanitizedMessage]. *)
Definition validateMessage (message : jsval) : Validation jsstring :=
  if negb (truthy message) then NotValid "message is required"
  else match message with
       | JStr s =>
           let trimmedMessage := trim s in
           if (length trimmedMessage =? 0)%nat
           then NotValid "message cannot be empty"
           else if (1000 <? length trimmedMessage)%nat
                then NotValid "message too long (max 1000 characters)"
                else IsValid (sanitize_string trimmedMessage)
       | _ => NotValid "message must be a string"
       end.

(** On success the value is [(sanitizedLimit, sanitizedOffset)].  The
    limit is looked at first; [check_offset] is the second half of the
    function, reached with the limit that was settled on. *)
Definition validatePagination (limit offset : jsval)
  : Completion (Validation (Z * Z)) :=
  let sanitizedLimit := 50%Z in
  let sanitizedOffset := 0%Z in
  let check_offset (sanitizedLimit : Z) :=
    match offset with
    | JUndefined => Normal (IsValid (sanitizedLimit, sanitizedOffset))
    | _ =>
        match parseInt offset with
        | Abrupt => Abrupt
        | Normal None => Normal (NotValid "offset must be a non-negative integer")
        | Normal (Some parsedOffset) =>
            if (parsedOffset <? 0)%Z
            then Normal (NotValid "offset must be a non-negative integer")
            else Normal (IsValid (sanitizedLimit, parsedOffset))
        end
    end in
  match limit with
  | JUndefined => check_offset sanitizedLimit
  | _ =>
      match parseInt limit with
      | Abrupt => Abrupt
      | Normal None => Normal (NotValid "limit must be a positive integer")
      | Normal (Some parsedLimit) =>
          if (parsedLimit <? 1)%Z
          then Normal (NotValid "limit must be a positive integer")
          else if (100 <? parsedLimit)%Z
               then Normal (NotValid "limit cannot exceed 100")
               else check_offset parsedLimit
      end
  end.

(** *** Rate limiting *)

(** The object kept per identifier in [rateLimitStore]. *)
Record ClientData := {
  requests : Z;
  resetTime : Z
}.

(** [checkRateLimit(identifier, maxRequests = 100, windowMs = 60000)].
    [now] is the reading of [Date.now()]; an argument left out is [None];
    [store] is the static [rateLimitStore], [None] before the first call.
    Returns the answer and the store afterwards. *)
Definition checkRateLimit (now : Z) (identifier : jsstring)
    (maxRequests windowMs : option Z)
    (store : option (gmap jsstring ClientData))
  : bool * option (gmap jsstring ClientData) :=
  let maxRequests := default 100%Z maxRequests in
  let windowMs := default 60000%Z windowMs in
  let rateLimitStore := default ∅ store in
  match rateLimitStore !! identifier with
  | None =>
      (true,
       Some (<[identifier := {| requests := 1; resetTime := now + windowMs |}]>
               rateLimitStore))
  | Some clientData =>
      if (resetTime clientData <? now)%Z then
        (true,
         Some (<[identifier := {| requests := 1; resetTime := now + windowMs |}]>
                 rateLimitStore))
      else if (maxRequests <=? requests clientData)%Z then
        (false, Some rateLimitStore)
      else
        (true,
         Some (<[identifier := {| requests := requests clientData + 1;
                                  resetTime := resetTime clientData |}]>
                 rateLimitStore))
  end.

(** *** Validators of whole payloads *)

(** [v.trim()] on a value: only a string has the method. *)
Definition trim_of (v : jsval) : Completion jsstring :=
  match v with
  | JStr s => Normal (trim s)
  | _ => Abrupt
  end.

(** The fields [validateChatData] reads from its argument; a field that is
    not there is [JUndefined]. *)
Record ChatData := {
  chat_roomId : jsval;
  chat_userId : jsval;
  chat_message : jsval
}.

(** [sanitizedData] of [validateChatData]. *)
Record SanitizedChatData := {
  sanitized_roomId : jsstring;
  sanitized_userId : jsstring;
  sanitized_message : jsstring
}.

(** [data] is [None] for a falsy argument, which [data || {}] replaces by
    an object without fields. *)
Definition validateChatData (data : option ChatData)
  : Completion (Validation SanitizedChatData) :=
  let d := default {| chat_roomId := JUndefined; chat_userId := JUndefined;
                      chat_message := JUndefined |} data in
  let roomId := chat_roomId d in
  let userId := chat_userId d in
  let message := chat_message d in
  match validateRoomId roomId with
  | NotValid error => Normal (NotValid error)
  | IsValid _ =>
      match validateUserId userId with
      | NotValid error => Normal (NotValid error)
      | IsValid _ =>
          match validateMessage message with
          | NotValid error => Normal (NotValid error)
          | IsValid sanitizedMessage =>
              match trim_of roomId, trim_of userId with
              | Normal r, Normal u =>
                  Normal (IsValid {| sanitized_roomId := r;
                                     sanitized_userId := u;
                                     sanitized_message := sanitizedMessage |})
              | _, _ => Abrupt
              end
          end
      end
  end.

(** [Number.isInteger] holds of the numbers [JNum] carries, the two
    infinities apart, and of nothing else. *)
Definition validateGamePosition (position : jsval) : Validation unit :=
  match position with
  | JNull | JUndefined => NotValid "position is required"
  | JNum z =>
      if (infinity <=? Z.abs (to_double z))%Z
      then NotValid "position must be an integer"
      else if (z <? 0)%Z || (8 <? z)%Z
      then NotValid "position must be between 0 and 8"
      else IsValid tt
  | _ => NotValid "position must be an integer"
  end.

(** [s.replace(pattern, replacement)] with a string pattern: the first
    occurrence only. *)
Definition replace_first (pattern replacement s : string) : string :=
  match String.index 0 pattern s with
  | Some i =>
      String.append (String.substring 0 i s)
        (String.append replacement
           (String.substring (i + String.length pattern)
              (String.length s - (i + String.length pattern)) s))
  | None => s
  end.

Record GameMoveData := {
  move_roomId : jsval;
  move_playerId : jsval;
  move_position : jsval
}.

(** [sanitizedData] of [validateGameMoveData]. *)
Record SanitizedGameMoveData := {
  sanitized_room : jsstring;
  sanitized_playerId : jsstring;
  sanitized_position : jsval
}.

Definition validateGameMoveData (data : option GameMoveData)
  : Completion (Validation SanitizedGameMoveData) :=
  let d := default {| move_roomId := JUndefined; move_playerId := JUndefined;
                      move_position := JUndefined |} data in
  let roomId := move_roomId d in
  let playerId := move_playerId d in
  let position := move_position d in
  match validateRoomId roomId with
  | NotValid error => Normal (NotValid error)
  | IsValid _ =>
      match validateUserId playerId with
      | NotValid error =>
          Normal (NotValid (replace_first "userId" "playerId" error))
      | IsValid _ =>
          match validateGamePosition position with
          | NotValid error => Normal (NotValid error)
          | IsValid _ =>
              match trim_of roomId, trim_of playerId with
              | Normal r, Normal u =>
                  Normal (IsValid {| sanitized_room := r;
                                     sanitized_playerId := u;
                                     sanitized_position := position |})
              | _, _ => Abrupt
              end
          end
      end
  end.

End ValidationMiddleware.

(** ** The world the handlers run in *)

(** A row of table [chat_message]. *)
Record Row := {
  id : Z;
  room_id : jsval;
  sender_id : jsval;
  content : jsval;
  created_at : Z
}.

(** A statement sent through [pool.query], with its parameters. *)
Inductive Query :=
| InsertMessage (roomId senderId content : jsval)
| SelectMessages (roomId limit offset : jsval).

(** The database engine is not part of the repository: whether it takes an
    [INSERT] and what it answers to the [SELECT] over the current rows are
    left to the engine ([None]: the query is rejected and [pool.query]
    throws). *)
Record Engine := {
  accepts_insert : Row -> bool;
  answer_select : list Row -> jsval -> jsval -> jsval -> option (list Row)
}.

(** What an event carries. *)
Inductive Payload :=
| ErrorMessage (message : string)
| UserJoined (userId : jsval) (socketId : SocketId) (timestamp : Z)
| Joined (roomId userId : jsval)
| Receive (data : Row) (socketId : SocketId)
| History (messages : list Row) (count : nat) (roomId limit offset : jsval)
| UserDisconnected (socketId : SocketId) (reason : jsstring).

(** An event as one socket receives it. *)
Record Delivery := {
  recipient : SocketId;
  event : string;
  payload : Payload
}.

Record World := {
  clock : Z;                          (* Date.now(), CURRENT_TIMESTAMP *)
  engine : Engine;
  table : list Row;                   (* chat_message, oldest first *)
  queries : list Query;               (* statements sent, oldest first *)
  membership : list (SocketId * Room);  (* (socket, room), in join order *)
  outbox : list Delivery;             (* events delivered, oldest first *)
  rateLimitStore : option (gmap jsstring ValidationMiddleware.ClientData)
}.

Definition set_table (t : list Row) (w : World) : World :=
  {| clock := clock w; engine := engine w; table := t; queries := queries w;
     membership := membership w; outbox := outbox w;
     rateLimitStore := rateLimitStore w |}.

Definition set_queries (q : list Query) (w : World) : World :=
  {| clock := clock w; engine := engine w; table := table w; queries := q;
     membership := membership w; outbox := outbox w;
     rateLimitStore := rateLimitStore w |}.

Definition set_membership (m : list (SocketId * Room)) (w : World) : World :=
  {| clock := clock w; engine := engine w; table := table w;
     queries := queries w; membership := m; outbox := outbox w;
     rateLimitStore := rateLimitStore w |}.

Definition set_outbox (o : list Delivery) (w : World) : World :=
  {| clock := clock w; engine := engine w; table := table w;
     queries := queries w; membership := membership w; outbox := o;
     rateLimitStore := rateLimitStore w |}.

Definition set_rateLimitStore
    (r : option (gmap jsstring ValidationMiddleware.ClientData)) (w : World)
  : World :=
  {| clock := clock w; engine := engine w; table := table w;
     queries := queries w; membership := membership w; outbox := outbox w;
     rateLimitStore := r |}.

(** *** Code that reads and writes the world and may throw *)

Inductive Outcome (A : Type) :=
| Returned (value : A) (w : World)
| Thrown (w : World).
Arguments Returned {A} value w.
Arguments Thrown {A} w.

Definition M (A : Type) : Type := World -> Outcome A.

Definition ret {A} (a : A) : M A := fun w => Returned a w.

Definition throw {A} : M A := fun w => Thrown w.

Definition bind {A B} (m : M A) (k : A -> M B) : M B :=
  fun w =>
    match m w with
    | Returned a w' => k a w'
    | Thrown w' => Thrown w'
    end.

(** [try { body } catch (error) { handler }] *)
Definition try_catch {A} (body : M A) (handler : M A) : M A :=
  fun w =>
    match body w with
    | Returned a w' => Returned a w'
    | Thrown w' => handler w'
    end.

Declare Scope js_scope.
Delimit Scope js_scope with js.
Notation "x <- m ;; k" := (bind m (fun x => k))
  (at level 20, m at level 99, k at level 200) : js_scope.
Notation "m ;; k" := (bind m (fun _ => k))
  (at level 100, k at level 200, right associativity) : js_scope.

(** The world after a handler that returns nothing has run. *)
Definition run (m : M unit) (w : World) : World :=
  match m w with
  | Returned _ w' => w'
  | Thrown w' => w'
  end.

Definition date_now : M Z := fun w => Returned (clock w) w.

(** A method call that throws when the receiver cannot answer it. *)
Definition lift_option {A} (o : option A) : M A :=
  match o with
  | Some a => ret a
  | None => throw
  end.

(** [console.log] of a template literal holding the given values: each
    is turned into text, in order, which can throw; what is written to the
    console is not part of the world. *)
Fixpoint console_log (values : list jsval) : M unit :=
  match values with
  | [] => ret tt
  | v :: values' =>
      match to_text v with
      | Some _ => console_log values'
      | None => throw
      end
  end.

(** *** Socket.IO *)

Module SocketIO.

(** The sockets in a room, in the order they joined. *)
Definition members_of (room : Room) (w : World) : list SocketId :=
  List.map fst
    (List.filter (fun p => bool_decide (snd p = room)) (membership w)).

(** [Array.from(socket.rooms)] *)
Definition rooms_of (socket : SocketId) (w : World) : list Room :=
  List.map snd
    (List.filter (fun p => bool_decide (fst p = socket)) (membership w)).

(** [socket.join(room)] *)
Definition join (socket : SocketId) (room : Room) : M unit :=
  fun w =>
    if bool_decide ((socket, room) ∈ membership w) then Returned tt w
    else Returned tt (set_membership (membership w ++ [(socket, room)]) w).

Definition deliver (ev : string) (p : Payload) (to : list SocketId)
  : M unit :=
  fun w =>
    Returned tt
      (set_outbox
         (outbox w ++
          List.map (fun s => {| recipient := s; event := ev; payload := p |}) to)
         w).

(** [socket.emit(ev, p)] *)
Definition emit (socket : SocketId) (ev : string) (p : Payload) : M unit :=
  deliver ev p [socket].

(** The members of a room that [socket.to(room)] reaches: Socket.IO 4
    leaves out every socket that is in the room named after the emitting
    socket, which is the socket itself for as long as it is in that room,
    where it is put when it connects. *)
Definition others_in (socket : SocketId) (room : Room) (w : World)
  : list SocketId :=
  List.filter (fun s => negb (bool_decide (s ∈ members_of socket w)))
    (members_of room w).

(** [socket.to(room).emit(ev, p)] *)
Definition to_emit (socket : SocketId) (room : Room) (ev : string)
    (p : Payload) : M unit :=
  fun w => deliver ev p (others_in socket room w) w.

(** [io.to(room).emit(ev, p)]: every member of the room. *)
Definition io_to_emit (room : Room) (ev : string) (p : Payload) : M unit :=
  fun w => deliver ev p (members_of room w) w.

(** [socket.leave(room)] *)
Definition leave (socket : SocketId) (room : Room) : M unit :=
  fun w =>
    Returned tt
      (set_membership
         (List.filter (fun p => negb (bool_decide (p = (socket, room))))
            (membership w))
         w).

(** What Socket.IO does to a socket that closes, before it emits
    [disconnect]: the socket leaves every room. *)
Definition leave_all (socket : SocketId) : M unit :=
  fun w =>
    Returned tt
      (set_membership
         (List.filter (fun p => negb (bool_decide (fst p = socket)))
            (membership w))
         w).

End SocketIO.

Local Open Scope js_scope.
Local Open Scope string_scope.
Local Open Scope list_scope.

(** A parameter with a default value: the default is taken when the
    argument is [undefined]. *)
Definition default_param (d : jsval) (v : jsval) : jsval :=
  match v with
  | JUndefined => d
  | _ => v
  end.

(** ** chatModel *)

Module chatModel.

(** The row [INSERT ... VALUES ($1, $2, $3, CURRENT_TIMESTAMP) RETURNING *]
    makes of its parameters: the engine numbers and dates it. *)
Definition new_row (roomId senderId content : jsval) (w : World) : Row :=
  {| id := Z.of_nat (length (table w)) + 1;
     room_id := roomId;
     sender_id := senderId;
     content := content;
     created_at := clock w |}.

Definition saveMessage (roomId senderId content : jsval) : M Row :=
  fun w =>
    let w1 :=
      set_queries (queries w ++ [InsertMessage roomId senderId content]) w in
    let row := new_row roomId senderId content w in
    if accepts_insert (engine w) row
    then Returned row (set_table (table w ++ [row]) w1)
    else Thrown w1.

(** [getMessagesByRoom(roomId, limit = 50, offset = 0)] *)
Definition getMessagesByRoom (roomId limit offset : jsval) : M (list Row) :=
  let limit := default_param (JNum 50) limit in
  let offset := default_param (JNum 0) offset in
  fun w =>
    let w1 :=
      set_queries (queries w ++ [SelectMessages roomId limit offset]) w in
    match answer_select (engine w) (table w) roomId limit offset with
    | Some rows => Returned rows w1
    | None => Thrown w1
    end.

End chatModel.

(** ** ChatService *)

(** [{ success, data, message }] or [{ success, error }] of [sendMessage]. *)
Inductive SendResult :=
| SendOk (data : Row) (message : string)
| SendFailed (error : string).

(** [{ success, data, count }] or [{ success, error }] of [getChatHistory]. *)
Inductive HistoryResult :=
| HistoryOk (data : list Row) (count : nat)
| HistoryFailed (error : string).

Module ChatService.

(** [content.trim()]: only a string has the method, the call throws a
    [TypeError] on any other value. *)
Definition call_trim (content : jsval) : M jsstring :=
  match content with
  | JStr s => ret (trim s)
  | _ => throw
  end.

Definition sendMessage (roomId senderId content : jsval) : M SendResult :=
  try_catch
    (if negb (truthy roomId) || negb (truthy senderId) || negb (truthy content)
     then ret (SendFailed "roomId, senderId, and content are required")
     else
       trimmedContent <- call_trim content ;;
       if (length trimmedContent =? 0)%nat
       then ret (SendFailed "Message content cannot be empty")
       else if (1000 <? length trimmedContent)%nat
       then ret (SendFailed "Message content too long (max 1000 characters)")
       else
         message <- chatModel.saveMessage roomId senderId (JStr trimmedContent) ;;
         ret (SendOk message "Message sent successfully"))
    (ret (SendFailed "Failed to send message")).

(** [getChatHistory(roomId, limit = 50, offset = 0)] *)
Definition getChatHistory (roomId limit offset : jsval) : M HistoryResult :=
  let limit := default_param (JNum 50) limit in
  let offset := default_param (JNum 0) offset in
  try_catch
    (if negb (truthy roomId)
     then ret (HistoryFailed "roomId is required")
     else
       messages <- chatModel.getMessagesByRoom roomId limit offset ;;
       ret (HistoryOk messages (length messages)))
    (ret (HistoryFailed "Failed to retrieve chat history")).

(** [fetchChatHistory(roomId)]: the history with the default limit and
    offset, or an exception when there is none. *)
Definition fetchChatHistory (roomId : jsval) : M (list Row) :=
  result <- getChatHistory roomId JUndefined JUndefined ;;
  match result with
  | HistoryOk data _ => ret data
  | HistoryFailed _ => throw
  end.

End ChatService.

(** ** ChatEvents *)

(** The object a client sends with an event; a field it does not have
    reads as [JUndefined]. *)
Record EventData := {
  f_roomId : jsval;
  f_userId : jsval;
  f_message : jsval;
  f_limit : jsval;
  f_offset : jsval
}.

Definition no_fields : EventData :=
  {| f_roomId := JUndefined; f_userId := JUndefined; f_message := JUndefined;
     f_limit := JUndefined; f_offset := JUndefined |}.

(** [const { ... } = data]: throws when [data] is [undefined] or [null],
    which is [None] here. *)
Definition destructure (data : option EventData) : M EventData :=
  lift_option data.

Module ChatEvents.

Import SocketIO.

(** [socket.on("chat:join", ...)] *)
Definition chat_join (socket : SocketId) (data : option EventData)
  : M unit :=
  try_catch
    (d <- destructure data ;;
     let roomId := f_roomId d in
     let userId := f_userId d in
     if negb (truthy roomId) || negb (truthy userId)
     then emit socket "chat:error"
            (ErrorMessage "roomId and userId are required")
     else
       room <- lift_option (toString roomId) ;;
       join socket room ;;
       room' <- lift_option (toString roomId) ;;
       timestamp <- date_now ;;
       to_emit socket room' "chat:userJoined"
         (UserJoined userId socket timestamp) ;;
       emit socket "chat:joined" (Joined roomId userId) ;;
       console_log [userId; roomId])
    (emit socket "chat:error" (ErrorMessage "Failed to join chat room")).

(** [socket.on("chat:send", ...)] *)
Definition chat_send (socket : SocketId) (data : option EventData)
  : M unit :=
  try_catch
    (d <- destructure data ;;
     let roomId := f_roomId d in
     let userId := f_userId d in
     let message := f_message d in
     if negb (truthy roomId) || negb (truthy userId) || negb (truthy message)
     then emit socket "chat:error"
            (ErrorMessage "roomId, userId, and message are required")
     else
       result <- ChatService.sendMessage roomId userId message ;;
       match result with
       | SendOk data _ =>
           room <- lift_option (toString roomId) ;;
           io_to_emit room "chat:receive" (Receive data socket) ;;
           console_log [roomId; userId]
       | SendFailed error =>
           emit socket "chat:error" (ErrorMessage error)
       end)
    (emit socket "chat:error" (ErrorMessage "Failed to send message")).

(** [socket.on("chat:getHistory", ...)]; [data || {}] reads every field
    of a missing payload as [undefined]. *)
Definition chat_getHistory (socket : SocketId) (data : option EventData)
  : M unit :=
  try_catch
    (let d := default no_fields data in
     let roomId := f_roomId d in
     let limit := default_param (JNum 50) (f_limit d) in
     let offset := default_param (JNum 0) (f_offset d) in
     if negb (truthy roomId)
     then emit socket "chat:error" (ErrorMessage "roomId is required")
     else
       result <- ChatService.getChatHistory roomId limit offset ;;
       match result with
       | HistoryOk messages count =>
           emit socket "chat:history"
             (History messages count roomId limit offset)
       | HistoryFailed error =>
           emit socket "chat:error" (ErrorMessage error)
       end)
    (emit socket "chat:error" (ErrorMessage "Failed to get chat history")).

(** [socket.on("chat:leave", ...)].  The objects sent with
    [chat:userLeft] and [chat:left] have the fields of those sent with
    [chat:userJoined] and [chat:joined]. *)
Definition chat_leave (socket : SocketId) (data : option EventData)
  : M unit :=
  try_catch
    (d <- destructure data ;;
     let roomId := f_roomId d in
     let userId := f_userId d in
     if negb (truthy roomId)
     then emit socket "chat:error" (ErrorMessage "roomId is required")
     else
       room <- lift_option (toString roomId) ;;
       leave socket room ;;
       room' <- lift_option (toString roomId) ;;
       timestamp <- date_now ;;
       to_emit socket room' "chat:userLeft"
         (UserJoined userId socket timestamp) ;;
       emit socket "chat:left" (Joined roomId userId) ;;
       console_log [userId; roomId])
    (emit socket "chat:error" (ErrorMessage "Failed to leave chat room")).

End ChatEvents.

(** ** SocketHandler *)

Module SocketHandler.

Import SocketIO.

(** [rooms.forEach(f)] *)
Fixpoint forEach {A} (f : A -> M unit) (l : list A) : M unit :=
  match l with
  | [] => ret tt
  | x :: l' => f x ;; forEach f l'
  end.

Definition handleDisconnection (socket : SocketId) (reason : jsstring)
  : M unit :=
  fun w =>
    let rooms := rooms_of socket w in
    forEach
      (fun roomId =>
         if negb (bool_decide (roomId = socket))
         then to_emit socket roomId "userDisconnected"
                (UserDisconnected socket reason)
         else ret tt)
      rooms w.

(** A socket closes: Socket.IO takes it out of its rooms and then emits
    [disconnect], for which [initialize] has installed a listener that
    calls [handleDisconnection]. *)
Definition on_disconnect (socket : SocketId) (reason : jsstring) : M unit :=
  leave_all socket ;;
  handleDisconnection socket reason.

End SocketHandler.

(** ** ChatController *)

(** [req.body] of [POST /tictactoe/chat/<roomId>], after the route has
    stored the room of the path in it. *)
Record RequestBody := {
  b_roomId : jsval;
  b_senderId : jsval;
  b_content : jsval
}.

(** The JSON document written to the response. *)
Inductive ResponseBody :=
| BodyCreated (data : Row) (message : string)
| BodyError (error : string).

Record Response := {
  status : Z;
  body : ResponseBody
}.

(** What [getMessages] writes: the status and [{ success, data, count }]
    or [{ success, error }]. *)
Record HistoryResponse := {
  history_status : Z;
  history_body : HistoryResult
}.

Module ChatController.

Definition postMessage (req_body : RequestBody) : M Response :=
  try_catch
    (let roomId := b_roomId req_body in
     let senderId := b_senderId req_body in
     let content := b_content req_body in
     result <- ChatService.sendMessage roomId senderId content ;;
     match result with
     | SendOk data message =>
         ret {| status := 201; body := BodyCreated data message |}
     | SendFailed error =>
         ret {| status := 400; body := BodyError error |}
     end)
    (ret {| status := 500; body := BodyError "Failed to save message" |}).

(** [parseInt(v)] as a value: a number or [NaN]. *)
Definition parseInt_value (v : jsval) : M jsval :=
  match parseInt v with
  | Normal (Some z) => ret (JNum z)
  | Normal None => ret JNaN
  | Abrupt => throw
  end.

(** [getMessages(req, res)] with [roomId] of [req.params] and [limit] and
    [offset] of [req.query]; [query] is [None] when [req.query] is not
    there, which is how the routes call it: they set [req.params] and
    nothing sets [req.query]. *)
Definition getMessages (roomId : jsval) (query : option (jsval * jsval))
  : M HistoryResponse :=
  try_catch
    (let '(limit, offset) := default (JUndefined, JUndefined) query in
     limit' <- (if truthy limit then parseInt_value limit
                else ret JUndefined) ;;
     offset' <- (if truthy offset then parseInt_value offset
                 else ret JUndefined) ;;
     result <- ChatService.getChatHistory roomId limit' offset' ;;
     match result with
     | HistoryOk data count =>
         ret {| history_status := 200; history_body := HistoryOk data count |}
     | HistoryFailed error =>
         ret {| history_status := 400; history_body := HistoryFailed error |}
     end)
    (ret {| history_status := 500;
            history_body := HistoryFailed "Failed to fetch messages" |}).

End ChatController.

(** ** Definitions the statements below are written with *)

(** *** Escaping as the documentation words it *)

(** The HTML entity of a character, for the six characters that have one;
    any other character stands for itself. *)
Definition html_entity (u : code_unit) : jsstring :=
  if (u =? amp)%N then str "&amp;"
  else if (u =? lt)%N then str "&lt;"
  else if (u =? gt)%N then str "&gt;"
  else if (u =? dquote)%N then str "&quot;"
  else if (u =? squote)%N then str "&#x27;"
  else if (u =? slash)%N then str "&#x2F;"
  else [u].

(** One scan over the input, left to right, each character replaced by its
    entity; what has been written is not looked at again. *)
Fixpoint escape_each (s : jsstring) : jsstring :=
  match s with
  | [] => []
  | u :: s' => html_entity u ++ escape_each s'
  end.

(** *** A sequence of calls of the rate limiter *)

(** The entry a call stores when it opens a window. *)
Definition fresh_window (now windowMs : Z) : ValidationMiddleware.ClientData :=
  {| ValidationMiddleware.requests := 1;
     ValidationMiddleware.resetTime := now + windowMs |}.

(** [checkRateLimit(identifier, maxRequests, windowMs)] called once at each
    of the given clock readings; the answers in order, and the store at
    the end. *)
Fixpoint check_at (times : list Z) (identifier : jsstring)
    (maxRequests windowMs : option Z)
    (store : option (gmap jsstring ValidationMiddleware.ClientData))
  : list bool * option (gmap jsstring ValidationMiddleware.ClientData) :=
  match times with
  | [] => ([], store)
  | now :: times' =>
      let '(allowed, store') :=
        ValidationMiddleware.checkRateLimit now identifier maxRequests
          windowMs store in
      let '(rest, store'') :=
        check_at times' identifier maxRequests windowMs store' in
      (allowed :: rest, store'')
  end.

(** *** An engine and a world to run examples in *)

#[global] Instance jsval_eq_dec : EqDecision jsval.
Proof. solve_decision. Defined.

(** An engine that takes every [INSERT] and answers the [SELECT] for a
    numeric, non-negative [LIMIT] and [OFFSET] with the rows of the room,
    oldest first; any other [LIMIT] or [OFFSET] is an error. *)
Definition reference_engine : Engine :=
  {| accepts_insert := fun _ => true;
     answer_select := fun rows roomId limit offset =>
       match limit, offset with
       | JNum l, JNum o =>
           if ((0 <=? l) && (0 <=? o))%Z
           then Some
                  (take (Z.to_nat l)
                     (drop (Z.to_nat o)
                        (List.filter
                           (fun r => bool_decide (room_id r = roomId)) rows)))
           else None
       | _, _ => None
       end |}.

(** Sockets [A] and [B], each in its own room and both in room [r1]; no
    message yet. *)
Definition two_in_r1 : World :=
  {| clock := 1000;
     engine := reference_engine;
     table := [];
     queries := [];
     membership := [(str "A", str "A"); (str "B", str "B");
                    (str "A", str "r1"); (str "B", str "r1")];
     outbox := [];
     rateLimitStore := None |}.

(** The same world, after socket [A] and user [alice] have both used up a
    window of 100 requests that is still open. *)
Definition two_in_r1_limited : World :=
  set_rateLimitStore
    (Some (<[str "A" := {| ValidationMiddleware.requests := 100;
                           ValidationMiddleware.resetTime := 50000 |}]>
             (<[str "alice" := {| ValidationMiddleware.requests := 100;
                                  ValidationMiddleware.resetTime := 50000 |}]>
                ∅)))
    two_in_r1.

(** The reply a socket gets when its request is turned down. *)
Definition chat_error (socket : SocketId) (message : string) : Delivery :=
  {| recipient := socket; event := "chat:error";
     payload := ErrorMessage message |}.

(** Whether a value can be turned into text. *)
Definition converts (v : jsval) : bool :=
  match to_text v with
  | Some _ => true
  | None => false
  end.

(** What the [catch] of a handler sends when the log line at the end of
    its [try] throws, which it does when one of the values printed cannot
    be turned into text. *)
Definition log_failure (socket : SocketId) (values : list jsval)
    (message : string) : list Delivery :=
  if forallb converts values then [] else [chat_error socket message].

(** [chat:receive] with a stored row, as each member of a room gets it. *)
Definition chat_receive (data : Row) (socket : SocketId) (to : SocketId)
  : Delivery :=
  {| recipient := to; event := "chat:receive";
     payload := Receive data socket |}.

(** [chat:history], the answer to [chat:getHistory]. *)
Definition chat_history (socket : SocketId) (messages : list Row)
    (roomId limit offset : jsval) : Delivery :=
  {| recipient := socket; event := "chat:history";
     payload := History messages (length messages) roomId limit offset |}.

(** The event [handleDisconnection] sends, as a member of a room gets it. *)
Definition user_disconnected (socket : SocketId) (reason : jsstring)
    (to : SocketId) : Delivery :=
  {| recipient := to; event := "userDisconnected";
     payload := UserDisconnected socket reason |}.

(** Everything [handleDisconnection] sends for a list of rooms: room by
    room, to the members [socket.to] reaches, skipping the room named
    after the socket. *)
Definition disconnect_notices (socket : SocketId) (reason : jsstring)
    (w : World) (rooms : list Room) : list Delivery :=
  flat_map
    (fun roomId =>
       if negb (bool_decide (roomId = socket))
       then List.map (user_disconnected socket reason)
              (SocketIO.others_in socket roomId w)
       else [])
    rooms.

Definition event_data (roomId userId message limit offset : jsval)
  : EventData :=
  {| f_roomId := roomId; f_userId := userId; f_message := message;
     f_limit := limit; f_offset := offset |}.

(** *** Events of joining and leaving, as a socket gets them *)

Definition chat_userJoined (userId : jsval) (socket : SocketId) (timestamp : Z)
    (to : SocketId) : Delivery :=
  {| recipient := to; event := "chat:userJoined";
     payload := UserJoined userId socket timestamp |}.

Definition chat_joined (socket : SocketId) (roomId userId : jsval) : Delivery :=
  {| recipient := socket; event := "chat:joined";
     payload := Joined roomId userId |}.

Definition chat_userLeft (userId : jsval) (socket : SocketId) (timestamp : Z)
    (to : SocketId) : Delivery :=
  {| recipient := to; event := "chat:userLeft";
     payload := UserJoined userId socket timestamp |}.

Definition chat_left (socket : SocketId) (roomId userId : jsval) : Delivery :=
  {| recipient := socket; event := "chat:left";
     payload := Joined roomId userId |}.

(** The characters [sanitizeHtml] rewrites. *)
Definition is_special (u : code_unit) : bool :=
  (u =? amp)%N || (u =? lt)%N || (u =? gt)%N || (u =? dquote)%N
  || (u =? squote)%N || (u =? slash)%N.

(** How many calls were allowed. *)
Definition allowed_count (answers : list bool) : nat :=
  length (List.filter (fun b : bool => b) answers).

(** ** The definitions on concrete inputs *)

Section Checks.

Import ValidationMiddleware.

Example trim_inner_blank_kept : trim (str "  a b  ") = str "a b".
Proof. reflexivity. Qed.

Example parseInt_ignores_trailing_text :
  parseInt (JStr (str " 12abc")) = Normal (Some 12%Z).
Proof. reflexivity. Qed.

Example parseInt_reads_sign_and_hex :
  parseInt (JStr (str "-7")) = Normal (Some (-7)%Z)
  /\ parseInt (JStr (str "0x1F")) = Normal (Some 31%Z).
Proof. split; reflexivity. Qed.

Example parseInt_without_digits_is_NaN :
  parseInt (JStr (str "abc")) = Normal None
  /\ parseInt (JStr (str "0x")) = Normal None
  /\ parseInt JNull = Normal None.
Proof. repeat split; reflexivity. Qed.

Example toString_of_large_number :
  toString (JNum (10 ^ 21)) = Some (str "1e+21")
  /\ toString (JNum (10 ^ 21 - 1)) = Some (str "1e+21")
  /\ toString (JNum (10 ^ 20)) = Some (str "100000000000000000000")
  /\ toString (JNum (2 ^ 70)) = Some (str "1.1805916207174113e+21")
  /\ toString (JNum (- 2 ^ 1024)) = Some (str "-Infinity").
Proof. by vm_compute. Qed.

Example parseInt_returns_double :
  parseInt (JStr (str "9007199254740993")) = Normal (Some 9007199254740992%Z)
  /\ parseInt (JNum (10 ^ 21)) = Normal (Some 1%Z)
  /\ parseInt (JNum (2 ^ 1024)) = Normal None.
Proof. by vm_compute. Qed.

Example toString_of_number : toString (JNum (-50)) = Some (str "-50").
Proof. reflexivity. Qed.

Example validatePagination_is_permissive :
  validatePagination (JStr (str "10 rows")) (JStr (str "5"))
  = Normal (IsValid (10%Z, 5%Z)).
Proof. reflexivity. Qed.

Example validateUserId_bound :
  validateUserId (JStr (repeat 97%N 50)) = IsValid tt
  /\ validateUserId (JStr (repeat 97%N 51))
     = NotValid "userId too long (max 50 characters)".
Proof. split; reflexivity. Qed.

Example checkRateLimit_defaults now identifier store :
  checkRateLimit now identifier None None store
  = checkRateLimit now identifier (Some 100%Z) (Some 60000%Z) store.
Proof. reflexivity. Qed.

(** [A] joins room [r2] as [alice]: [A] becomes a member, nobody else is
    in the room to be told, and [A] gets [chat:joined]. *)
Example chat_join_new_room :
  let d := event_data (JStr (str "r2")) (JStr (str "alice")) JUndefined
             JUndefined JUndefined in
  let w' := run (ChatEvents.chat_join (str "A") (Some d)) two_in_r1 in
  SocketIO.members_of (str "r2") w' = [str "A"]
  /\ outbox w'
     = [{| recipient := str "A"; event := "chat:joined";
           payload := Joined (JStr (str "r2")) (JStr (str "alice")) |}].
Proof. split; reflexivity. Qed.

End Checks.

(** ** The sanitizer *)

Section Sanitizer.

Import ValidationMiddleware.

Lemma replace_all_app c r a b :
  replace_all c r (a ++ b) = replace_all c r a ++ replace_all c r b.
Proof.
  induction a as [|u a IH]; simpl; [done|].
  by rewrite IH, app_assoc.
Qed.

Lemma replace_all_single c r u :
  replace_all c r [u] = if (u =? c)%N then r else [u].
Proof. simpl. by rewrite app_nil_r. Qed.

(** The six passes over one character give that character's entity: the
    entities written by an earlier pass contain no character a later pass
    looks for. *)
Lemma passes_on_one_character u :
  replace_all slash (str "&#x2F;")
    (replace_all squote (str "&#x27;")
      (replace_all dquote (str "&quot;")
        (replace_all gt (str "&gt;")
          (replace_all lt (str "&lt;")
            (if (u =? amp)%N then str "&amp;" else [u])))))
  = html_entity u.
Proof.
  unfold html_entity.
  destruct (N.eqb_spec u amp) as [->|_]; [reflexivity|].
  rewrite replace_all_single.
  destruct (N.eqb_spec u lt) as [->|_]; [reflexivity|].
  rewrite replace_all_single.
  destruct (N.eqb_spec u gt) as [->|_]; [reflexivity|].
  rewrite replace_all_single.
  destruct (N.eqb_spec u dquote) as [->|_]; [reflexivity|].
  rewrite replace_all_single.
  destruct (N.eqb_spec u squote) as [->|_]; [reflexivity|].
  rewrite replace_all_single.
  by destruct (N.eqb_spec u slash) as [->|_].
Qed.

Lemma sanitize_string_cons u s :
  sanitize_string (u :: s) = html_entity u ++ sanitize_string s.
Proof.
  unfold sanitize_string.
  change (replace_all amp (str "&amp;") (u :: s))
    with ((if (u =? amp)%N then str "&amp;" else [u])
            ++ replace_all amp (str "&amp;") s).
  rewrite !replace_all_app.
  by rewrite passes_on_one_character.
Qed.

Lemma sanitize_string_escape_each s : sanitize_string s = escape_each s.
Proof.
  induction s as [|u s IH]; [reflexivity|].
  rewrite sanitize_string_cons, IH. reflexivity.
Qed.

Lemma html_entity_length u : 1 <= length (html_entity u).
Proof.
  unfold html_entity.
  repeat (case (_ =? _)%N; [vm_compute; lia|]).
  simpl. lia.
Qed.

Lemma html_entity_amp : html_entity amp = str "&amp;".
Proof. reflexivity. Qed.

Lemma escape_each_length s : length s <= length (escape_each s).
Proof.
  induction s as [|u s IH]; simpl; [lia|].
  rewrite length_app. pose proof (html_entity_length u). lia.
Qed.

Lemma escape_each_grows s : amp ∈ s -> length s < length (escape_each s).
Proof.
  induction s as [|u s IH]; intros Hin.
  - by apply elem_of_nil in Hin.
  - simpl. rewrite length_app.
    apply elem_of_cons in Hin as [<-|Hin].
    + rewrite html_entity_amp. pose proof (escape_each_length s).
      change (length (str "&amp;")) with 5. lia.
    + pose proof (html_entity_length u). specialize (IH Hin). lia.
Qed.

Lemma escape_each_keeps_amp s : amp ∈ s -> amp ∈ escape_each s.
Proof.
  induction s as [|u s IH]; intros Hin.
  - by apply elem_of_nil in Hin.
  - simpl. apply elem_of_app.
    apply elem_of_cons in Hin as [<-|Hin]; [left|right; auto].
    rewrite html_entity_amp. apply elem_of_cons. by left.
Qed.

(** C3. For every input string, [sanitizeHtml] returns the string in which
    each occurrence of [&], [<], [>], the double quote, ['] and [/] is
    replaced by its HTML entity ([&amp;] [&lt;] [&gt;] [&quot;] [&#x27;]
    [&#x2F;]) and every other character is kept, the replacement being
    done once per character of the input and not again on what it wrote;
    in particular [sanitizeHtml("<script>")] is ["&lt;script&gt;"].
    [validateMessage], when it succeeds, returns the trimmed message
    escaped in this way. *)
Theorem C3_sanitize_replaces_each_character_once :
  (forall s : jsstring, sanitizeHtml (JStr s) = JStr (escape_each s))
  /\ sanitizeHtml (JStr (str "<script>")) = JStr (str "&lt;script&gt;")
  /\ (forall m : jsstring,
         match validateMessage (JStr m) with
         | IsValid sanitizedMessage =>
             sanitizedMessage = escape_each (trim m)
         | NotValid _ => trim m = [] \/ 1000 < length (trim m)
         end).
Proof.
  split; [|split].
  - intros s. simpl. by rewrite sanitize_string_escape_each.
  - reflexivity.
  - intros m. unfold validateMessage.
    destruct m as [|u m]; [by left|]. cbn [truthy negb]. cbn zeta.
    destruct (trim (u :: m)) as [|v t] eqn:Ht; [by left|].
    cbn [length Nat.eqb].
    destruct (1000 <? S (length t))%nat eqn:E.
    + right. by apply Nat.ltb_lt in E.
    + apply sanitize_string_escape_each.
Qed.

(** C8. Sanitizing is not idempotent: sanitizing ["&"] gives ["&amp;"] and
    sanitizing that again gives ["&amp;amp;"], and more generally
    sanitizing twice differs from sanitizing once for every string that
    contains [&] and for every string whose sanitized form contains [&]. *)
Theorem C8_sanitize_not_idempotent :
  (exists s : jsstring,
      sanitizeHtml (sanitizeHtml (JStr s)) <> sanitizeHtml (JStr s))
  /\ sanitizeHtml (JStr (str "&")) = JStr (str "&amp;")
  /\ sanitizeHtml (sanitizeHtml (JStr (str "&"))) = JStr (str "&amp;amp;")
  /\ (forall s : jsstring,
         amp ∈ sanitize_string s ->
         sanitizeHtml (sanitizeHtml (JStr s)) <> sanitizeHtml (JStr s))
  /\ (forall s : jsstring,
         amp ∈ s ->
         sanitizeHtml (sanitizeHtml (JStr s)) <> sanitizeHtml (JStr s)).
Proof.
  assert (Hgen : forall s : jsstring,
             amp ∈ sanitize_string s ->
             sanitizeHtml (sanitizeHtml (JStr s)) <> sanitizeHtml (JStr s)).
  { intros s Hin Heq. simpl in Heq. injection Heq as Heq.
    apply escape_each_grows in Hin.
    rewrite <- sanitize_string_escape_each, Heq in Hin. lia. }
  split; [|split; [|split; [|split]]].
  - exists (str "&"). apply Hgen. vm_compute. apply elem_of_cons. by left.
  - reflexivity.
  - reflexivity.
  - exact Hgen.
  - intros s Hin. apply Hgen.
    rewrite sanitize_string_escape_each. by apply escape_each_keeps_amp.
Qed.

(** An instance of C8: the string ["a&b"]. *)
Lemma C8_sanitize_not_idempotent_witness :
  amp ∈ str "a&b"
  /\ sanitizeHtml (sanitizeHtml (JStr (str "a&b")))
     <> sanitizeHtml (JStr (str "a&b")).
Proof.
  assert (Hin : amp ∈ str "a&b").
  { vm_compute. apply elem_of_cons. right. apply elem_of_cons. by left. }
  split; [exact Hin|].
  exact (proj2 (proj2 (proj2 (proj2 C8_sanitize_not_idempotent)))
           (str "a&b") Hin).
Defined.

End Sanitizer.

(** ** Room identifiers *)

Section RoomIdentifiers.

Import ValidationMiddleware.

Lemma trim_nil : trim [] = [].
Proof. reflexivity. Qed.

Lemma length_zero_iff_nil {A} (l : list A) : (length l =? 0)%nat = true <-> l = [].
Proof.
  destruct l; simpl; split; intros H; try done.
Qed.

(** [validateRoomId] in one case analysis. *)
Lemma validateRoomId_string s :
  validateRoomId (JStr s) =
    if bool_decide (s = []) then NotValid "roomId is required"
    else if bool_decide (trim s = []) then NotValid "roomId cannot be empty"
    else if bool_decide (100 < length s)%nat
         then NotValid "roomId too long (max 100 characters)"
         else IsValid tt.
Proof.
  unfold validateRoomId.
  destruct s as [|u s]; [reflexivity|].
  cbn [truthy negb]. rewrite bool_decide_eq_false_2 by discriminate.
  destruct (trim (u :: s)) as [|? ?] eqn:Ht; [reflexivity|].
  cbn [length Nat.eqb]. rewrite bool_decide_eq_false_2 by discriminate.
  destruct (100 <? S (length s))%nat eqn:E.
  - apply Nat.ltb_lt in E. by rewrite bool_decide_eq_true_2.
  - apply Nat.ltb_ge in E. rewrite bool_decide_eq_false_2; [done|lia].
Qed.

(** C9, the claim as stated fails: the one-character identifier [" "] has
    a length in [1,100] and is rejected. *)
Lemma C9_blank_room_id_rejected :
  length (str " ") = 1
  /\ validateRoomId (JStr (str " ")) = NotValid "roomId cannot be empty".
Proof. split; reflexivity. Qed.

(** C9, amended. [validateRoomId] accepts a value exactly when it is a
    string that is not empty after trimming and has at most 100
    characters; so for every identifier string that is not empty after
    trimming (of length 1, 100, 101 or any other) it accepts exactly when
    the length lies in [1,100], and an identifier that is empty after
    trimming is rejected whatever its length. *)
Theorem C9_validateRoomId_accepts :
  (forall v : jsval,
      validateRoomId v = IsValid tt
      <-> exists s, v = JStr s /\ trim s <> [] /\ length s <= 100)
  /\ (forall s : jsstring,
         trim s <> [] ->
         (isValid (validateRoomId (JStr s)) = true
          <-> 1 <= length s <= 100))
  /\ (forall s : jsstring,
         trim s = [] -> isValid (validateRoomId (JStr s)) = false).
Proof.
  split; [|split].
  - intros v. split.
    + destruct v as [| |b|z| |s|o]; try (unfold validateRoomId; simpl;
        repeat case_match; discriminate).
      rewrite validateRoomId_string. repeat case_bool_decide; try discriminate.
      intros _. exists s. repeat split; [done|lia].
    + intros (s & -> & Ht & Hl). rewrite validateRoomId_string.
      assert (s <> []) by (intros ->; by apply Ht).
      repeat case_bool_decide; try done; lia.
  - intros s Ht. rewrite validateRoomId_string.
    assert (Hs : s <> []) by (intros ->; by apply Ht).
    assert (1 <= length s) by (destruct s; [done|simpl; lia]).
    repeat case_bool_decide; simpl; try done; split; try done; lia.
  - intros s Ht. rewrite validateRoomId_string.
    repeat case_bool_decide; done.
Qed.

(** An instance of C9: an identifier of 100 letters is accepted. *)
Lemma C9_validateRoomId_accepts_witness :
  trim (repeat 97%N 100) <> []
  /\ (isValid (validateRoomId (JStr (repeat 97%N 100))) = true
      <-> 1 <= length (repeat 97%N 100) <= 100).
Proof.
  assert (Ht : trim (repeat 97%N 100) <> []) by (vm_compute; discriminate).
  split; [exact Ht|].
  exact (proj1 (proj2 C9_validateRoomId_accepts) (repeat 97%N 100) Ht).
Defined.

End RoomIdentifiers.

(** ** The rate limiter *)

Section RateLimiter.

Import ValidationMiddleware.

Implicit Types (store : option (gmap jsstring ClientData)).
Implicit Types (identifier : jsstring) (clientData : ClientData).

Lemma check_no_entry now identifier mx win store :
  default ∅ store !! identifier = None ->
  checkRateLimit now identifier (Some mx) (Some win) store
  = (true, Some (<[identifier := fresh_window now win]> (default ∅ store))).
Proof. intros H. unfold checkRateLimit. simpl. by rewrite H. Qed.

Lemma check_expired now identifier mx win store clientData :
  default ∅ store !! identifier = Some clientData ->
  (resetTime clientData < now)%Z ->
  checkRateLimit now identifier (Some mx) (Some win) store
  = (true, Some (<[identifier := fresh_window now win]> (default ∅ store))).
Proof.
  intros H Hlt. unfold checkRateLimit. simpl. rewrite H.
  by rewrite (proj2 (Z.ltb_lt _ _) Hlt).
Qed.

Lemma check_denied now identifier mx win store clientData :
  default ∅ store !! identifier = Some clientData ->
  (now <= resetTime clientData)%Z ->
  (mx <= requests clientData)%Z ->
  checkRateLimit now identifier (Some mx) (Some win) store
  = (false, Some (default ∅ store)).
Proof.
  intros H Hle Hmx. unfold checkRateLimit. simpl. rewrite H.
  rewrite (proj2 (Z.ltb_ge _ _) Hle).
  by rewrite (proj2 (Z.leb_le _ _) Hmx).
Qed.

Lemma check_counted now identifier mx win store clientData :
  default ∅ store !! identifier = Some clientData ->
  (now <= resetTime clientData)%Z ->
  (requests clientData < mx)%Z ->
  checkRateLimit now identifier (Some mx) (Some win) store
  = (true,
     Some (<[identifier := {| requests := requests clientData + 1;
                              resetTime := resetTime clientData |}]>
             (default ∅ store))).
Proof.
  intros H Hle Hmx. unfold checkRateLimit. simpl. rewrite H.
  rewrite (proj2 (Z.ltb_ge _ _) Hle).
  by rewrite (proj2 (Z.leb_gt _ _) Hmx).
Qed.

(** The first call of a run opens a window, whether the identifier is new
    or its last window is over. *)
Lemma check_opens_window now identifier mx win store :
  (default ∅ store !! identifier = None
   \/ exists clientData,
        default ∅ store !! identifier = Some clientData
        /\ (resetTime clientData < now)%Z) ->
  checkRateLimit now identifier (Some mx) (Some win) store
  = (true, Some (<[identifier := fresh_window now win]> (default ∅ store))).
Proof.
  intros [H|(cd & H & Hlt)].
  - by apply check_no_entry.
  - by eapply check_expired.
Qed.

(** C7. [checkRateLimit(identifier, maxRequests, windowMs)] is a
    fixed-window counter: with no entry for the identifier it stores
    [{requests: 1, resetTime: now + windowMs}] and allows; with an entry
    whose [resetTime] is before [now] it stores the same fresh entry and
    allows; otherwise, with [requests >= maxRequests] it denies and leaves
    the store as it is; otherwise it adds one to [requests], keeps
    [resetTime], and allows.  So of five calls with [maxRequests = 3] and
    [windowMs = 60000], the first opening a window at [t1], the next three
    no later than [t1 + 60000] and the fifth after it, the first three are
    allowed, the fourth is denied and the fifth is allowed. *)
Theorem C7_checkRateLimit_fixed_window :
  (forall now identifier mx win store,
      default ∅ store !! identifier = None ->
      checkRateLimit now identifier (Some mx) (Some win) store
      = (true,
         Some (<[identifier := {| requests := 1; resetTime := now + win |}]>
                 (default ∅ store))))
  /\ (forall now identifier mx win store clientData,
         default ∅ store !! identifier = Some clientData ->
         (now > resetTime clientData)%Z ->
         checkRateLimit now identifier (Some mx) (Some win) store
         = (true,
            Some (<[identifier := {| requests := 1; resetTime := now + win |}]>
                    (default ∅ store))))
  /\ (forall now identifier mx win store clientData,
         default ∅ store !! identifier = Some clientData ->
         ~ (now > resetTime clientData)%Z ->
         (requests clientData >= mx)%Z ->
         checkRateLimit now identifier (Some mx) (Some win) store
         = (false, Some (default ∅ store)))
  /\ (forall now identifier mx win store clientData,
         default ∅ store !! identifier = Some clientData ->
         ~ (now > resetTime clientData)%Z ->
         ~ (requests clientData >= mx)%Z ->
         checkRateLimit now identifier (Some mx) (Some win) store
         = (true,
            Some (<[identifier := {| requests := requests clientData + 1;
                                     resetTime := resetTime clientData |}]>
                    (default ∅ store))))
  /\ (forall identifier store (t1 t2 t3 t4 t5 : Z),
         (default ∅ store !! identifier = None
          \/ exists clientData,
               default ∅ store !! identifier = Some clientData
               /\ (resetTime clientData < t1)%Z) ->
         (t2 <= t1 + 60000)%Z -> (t3 <= t1 + 60000)%Z ->
         (t4 <= t1 + 60000)%Z -> (t1 + 60000 < t5)%Z ->
         fst (check_at [t1; t2; t3; t4; t5] identifier (Some 3%Z)
                (Some 60000%Z) store)
         = [true; true; true; false; true]).
Proof.
  split; [|split; [|split; [|split]]].
  - intros. by apply check_no_entry.
  - intros. eapply check_expired; [eassumption|lia].
  - intros. eapply check_denied; [eassumption|lia..].
  - intros. eapply check_counted; [eassumption|lia..].
  - intros identifier store t1 t2 t3 t4 t5 Hopen H2 H3 H4 H5.
    pose (m1 := <[identifier := fresh_window t1 60000]> (default ∅ store)).
    pose (m2 := <[identifier := {| requests := 2; resetTime := t1 + 60000 |}]> m1).
    pose (m3 := <[identifier := {| requests := 3; resetTime := t1 + 60000 |}]> m2).
    pose (m5 := <[identifier := fresh_window t5 60000]> m3).
    assert (E1 : checkRateLimit t1 identifier (Some 3%Z) (Some 60000%Z) store
                 = (true, Some m1))
      by exact (check_opens_window t1 identifier 3 60000 store Hopen).
    assert (E2 : checkRateLimit t2 identifier (Some 3%Z) (Some 60000%Z) (Some m1)
                 = (true, Some m2)).
    { apply (check_counted t2 identifier 3 60000 (Some m1)
               (fresh_window t1 60000));
        [apply lookup_insert_eq|simpl; lia..]. }
    assert (E3 : checkRateLimit t3 identifier (Some 3%Z) (Some 60000%Z) (Some m2)
                 = (true, Some m3)).
    { apply (check_counted t3 identifier 3 60000 (Some m2)
               {| requests := 2; resetTime := t1 + 60000 |});
        [apply lookup_insert_eq|simpl; lia..]. }
    assert (E4 : checkRateLimit t4 identifier (Some 3%Z) (Some 60000%Z) (Some m3)
                 = (false, Some m3)).
    { apply (check_denied t4 identifier 3 60000 (Some m3)
               {| requests := 3; resetTime := t1 + 60000 |});
        [apply lookup_insert_eq|simpl; lia..]. }
    assert (E5 : checkRateLimit t5 identifier (Some 3%Z) (Some 60000%Z) (Some m3)
                 = (true, Some m5)).
    { apply (check_expired t5 identifier 3 60000 (Some m3)
               {| requests := 3; resetTime := t1 + 60000 |});
        [apply lookup_insert_eq|simpl; lia]. }
    unfold check_at. by rewrite E1, E2, E3, E4, E5.
Qed.

(** An instance of C7: identifier ["x"], no store yet, calls at 0, 10, 20
    and 30 milliseconds and a fifth at 60001. *)
Lemma C7_checkRateLimit_fixed_window_witness :
  fst (check_at [0; 10; 20; 30; 60001]%Z (str "x") (Some 3%Z) (Some 60000%Z)
         None)
  = [true; true; true; false; true].
Proof.
  apply (proj2 (proj2 (proj2 (proj2 C7_checkRateLimit_fixed_window))));
    [left; reflexivity|lia..].
Defined.

End RateLimiter.

(** ** Sending a message *)

Section Sending.

Import ValidationMiddleware SocketIO.

(** [ChatService.sendMessage] never throws; its outcome, case by case. *)
Lemma sendMessage_outcome roomId senderId content w :
  ChatService.sendMessage roomId senderId content w =
    if negb (truthy roomId) || negb (truthy senderId) || negb (truthy content)
    then Returned (SendFailed "roomId, senderId, and content are required") w
    else match content with
         | JStr s =>
             if (length (trim s) =? 0)%nat
             then Returned (SendFailed "Message content cannot be empty") w
             else if (1000 <? length (trim s))%nat
             then Returned
                    (SendFailed "Message content too long (max 1000 characters)")
                    w
             else
               let asked :=
                 set_queries
                   (queries w ++ [InsertMessage roomId senderId (JStr (trim s))])
                   w in
               let row := chatModel.new_row roomId senderId (JStr (trim s)) w in
               if accepts_insert (engine w) row
               then Returned (SendOk row "Message sent successfully")
                      (set_table (table w ++ [row]) asked)
               else Returned (SendFailed "Failed to send message") asked
         | _ => Returned (SendFailed "Failed to send message") w
         end.
Proof.
  unfold ChatService.sendMessage, try_catch, bind, ret.
  destruct (negb (truthy roomId) || negb (truthy senderId)
            || negb (truthy content)); [reflexivity|].
  destruct content; try reflexivity.
  unfold ChatService.call_trim, ret.
  destruct (length (trim s) =? 0)%nat; [reflexivity|].
  destruct (1000 <? length (trim s))%nat; [reflexivity|].
  unfold chatModel.saveMessage. cbn zeta.
  by destruct (accepts_insert _ _).
Qed.

Lemma console_log_outcome values w :
  console_log values w
  = if forallb converts values then Returned tt w else Thrown w.
Proof.
  induction values as [|v values IH]; [reflexivity|].
  simpl. unfold converts at 1. by destruct (to_text v).
Qed.

Lemma toString_to_text v r : toString v = Some r -> to_text v = Some r.
Proof. by destruct v. Qed.

Lemma converts_of_toString v r : toString v = Some r -> converts v = true.
Proof. intros H. unfold converts. by rewrite (toString_to_text v r H). Qed.

(** [chat:send] on a payload object, in terms of [sendMessage]. *)
Lemma chat_send_outcome socket d w :
  run (ChatEvents.chat_send socket (Some d)) w =
    if negb (truthy (f_roomId d)) || negb (truthy (f_userId d))
       || negb (truthy (f_message d))
    then set_outbox
           (outbox w ++
            [chat_error socket "roomId, userId, and message are required"]) w
    else match ChatService.sendMessage (f_roomId d) (f_userId d) (f_message d) w
         with
         | Returned (SendOk data _) w1 =>
             match toString (f_roomId d) with
             | Some room =>
                 set_outbox
                   (outbox w1
                    ++ List.map (chat_receive data socket) (members_of room w1)
                    ++ log_failure socket [f_roomId d; f_userId d]
                         "Failed to send message")
                   w1
             | None =>
                 set_outbox
                   (outbox w1 ++ [chat_error socket "Failed to send message"])
                   w1
             end
         | Returned (SendFailed error) w1 =>
             set_outbox (outbox w1 ++ [chat_error socket error]) w1
         | Thrown w1 =>
             set_outbox
               (outbox w1 ++ [chat_error socket "Failed to send message"]) w1
         end.
Proof.
  unfold run, ChatEvents.chat_send, try_catch, bind, destructure, lift_option,
    ret.
  destruct (negb (truthy (f_roomId d)) || negb (truthy (f_userId d))
            || negb (truthy (f_message d))); [reflexivity|].
  destruct (ChatService.sendMessage _ _ _ w) as [[data msg|error] w1|w1];
    try reflexivity.
  destruct (toString (f_roomId d)); [|reflexivity].
  unfold io_to_emit, deliver. rewrite console_log_outcome.
  unfold log_failure.
  destruct (forallb converts [f_roomId d; f_userId d]).
  - by rewrite app_nil_r.
  - unfold emit, deliver, set_outbox. cbn. by rewrite <- app_assoc.
Qed.

(** Without a payload the destructuring throws and the handler reports
    it. *)
Lemma chat_send_no_payload socket w :
  run (ChatEvents.chat_send socket None) w =
    set_outbox (outbox w ++ [chat_error socket "Failed to send message"]) w.
Proof. reflexivity. Qed.

Lemma postMessage_outcome b w :
  ChatController.postMessage b w =
    match ChatService.sendMessage (b_roomId b) (b_senderId b) (b_content b) w
    with
    | Returned (SendOk data message) w1 =>
        Returned {| status := 201; body := BodyCreated data message |} w1
    | Returned (SendFailed error) w1 =>
        Returned {| status := 400; body := BodyError error |} w1
    | Thrown w1 =>
        Returned {| status := 500; body := BodyError "Failed to save message" |}
          w1
    end.
Proof.
  unfold ChatController.postMessage, try_catch, bind, ret.
  by destruct (ChatService.sendMessage _ _ _ w) as [[data msg|error] w1|w1].
Qed.

(** C10. A [chat:join] request whose [roomId] is present and whose
    [userId] is absent or falsy is answered with a [chat:error] event
    carrying "roomId and userId are required", sent to the caller only;
    the socket joins no room and nobody is sent [chat:userJoined]. *)
Theorem C10_join_requires_userId socket d w :
  truthy (f_roomId d) = true ->
  truthy (f_userId d) = false ->
  let w' := run (ChatEvents.chat_join socket (Some d)) w in
  w' = set_outbox
         (outbox w ++ [chat_error socket "roomId and userId are required"]) w
  /\ membership w' = membership w
  /\ outbox w' = outbox w ++ [chat_error socket "roomId and userId are required"].
Proof.
  intros Hroom Huser. cbn zeta.
  assert (E : run (ChatEvents.chat_join socket (Some d)) w
              = set_outbox
                  (outbox w
                   ++ [chat_error socket "roomId and userId are required"]) w).
  { unfold run, ChatEvents.chat_join, try_catch, bind, destructure,
      lift_option, ret.
    by rewrite Hroom, Huser. }
  rewrite E. by repeat split.
Qed.

(** An instance of C10: socket [A] asks to join room [r1] without a user
    identifier. *)
Lemma C10_join_requires_userId_witness :
  let d := event_data (JStr (str "r1")) JUndefined JUndefined JUndefined
             JUndefined in
  let w' := run (ChatEvents.chat_join (str "A") (Some d)) two_in_r1 in
  membership w' = membership two_in_r1
  /\ outbox w' = [chat_error (str "A") "roomId and userId are required"].
Proof.
  intros d w'.
  destruct (C10_join_requires_userId (str "A") d two_in_r1 eq_refl eq_refl)
    as (_ & Hm & Ho).
  split; [exact Hm|exact Ho].
Defined.

(** C6. A send request whose message is a string that is empty after
    trimming fails: over the socket the sender, and nobody else, gets one
    [chat:error] event with the reason, over HTTP the answer is status 400
    with the reason; no statement is sent to the message store and no row
    is added. *)
Theorem C6_blank_message_rejected :
  (forall socket d s w,
      f_message d = JStr s ->
      trim s = [] ->
      exists reason,
        (reason = "roomId, userId, and message are required"
         \/ reason = "Message content cannot be empty")
        /\ run (ChatEvents.chat_send socket (Some d)) w
           = set_outbox (outbox w ++ [chat_error socket reason]) w)
  /\ (forall b s w,
         b_content b = JStr s ->
         trim s = [] ->
         exists reason,
           (reason = "roomId, senderId, and content are required"
            \/ reason = "Message content cannot be empty")
           /\ ChatController.postMessage b w
              = Returned {| status := 400; body := BodyError reason |} w).
Proof.
  split.
  - intros socket d s w Hm Ht.
    rewrite chat_send_outcome, sendMessage_outcome.
    destruct (negb (truthy (f_roomId d)) || negb (truthy (f_userId d))
              || negb (truthy (f_message d))) eqn:E.
    + eexists. split; [by left|reflexivity].
    + rewrite Hm, Ht. simpl.
      eexists. split; [by right|reflexivity].
  - intros b s w Hc Ht.
    rewrite postMessage_outcome, sendMessage_outcome.
    destruct (negb (truthy (b_roomId b)) || negb (truthy (b_senderId b))
              || negb (truthy (b_content b))) eqn:E.
    + eexists. split; [by left|reflexivity].
    + rewrite Hc, Ht. simpl.
      eexists. split; [by right|reflexivity].
Qed.

(** An instance of C6: user [alice] on socket [A] sends three blanks to
    room [r1]. *)
Lemma C6_blank_message_rejected_witness :
  let d := event_data (JStr (str "r1")) (JStr (str "alice")) (JStr (str "   "))
             JUndefined JUndefined in
  exists reason,
    run (ChatEvents.chat_send (str "A") (Some d)) two_in_r1
    = set_outbox (outbox two_in_r1 ++ [chat_error (str "A") reason]) two_in_r1.
Proof.
  intros d.
  destruct (proj1 C6_blank_message_rejected (str "A") d (str "   ") two_in_r1
              eq_refl eq_refl) as (reason & _ & E).
  by exists reason.
Defined.

End Sending.

(** ** What is stored, and who may send *)

Section Stored.

Import ValidationMiddleware SocketIO.

Lemma length_bounds_of_tests {A} (l : list A) :
  (length l =? 0)%nat = false ->
  (1000 <? length l)%nat = false ->
  1 <= length l <= 1000.
Proof.
  intros H0 H1. apply Nat.eqb_neq in H0. apply Nat.ltb_ge in H1. lia.
Qed.

(** What [sendMessage] leaves in the table: nothing new, or one row
    holding the trimmed content. *)
Lemma sendMessage_stores roomId senderId content w :
  match ChatService.sendMessage roomId senderId content w with
  | Returned (SendOk data _) w1 =>
      exists s,
        content = JStr s
        /\ data = chatModel.new_row roomId senderId (JStr (trim s)) w
        /\ table w1 = table w ++ [data]
        /\ membership w1 = membership w
        /\ outbox w1 = outbox w
        /\ 1 <= length (trim s) <= 1000
  | Returned (SendFailed _) w1 =>
      table w1 = table w /\ membership w1 = membership w
      /\ outbox w1 = outbox w
  | Thrown _ => False
  end.
Proof.
  rewrite sendMessage_outcome.
  destruct (negb (truthy roomId) || negb (truthy senderId)
            || negb (truthy content)); [done|].
  destruct content; try done.
  destruct (length (trim s) =? 0)%nat eqn:H0; [done|].
  destruct (1000 <? length (trim s))%nat eqn:H1; [done|].
  cbn zeta. destruct (accepts_insert _ _); [|done].
  exists s. repeat split; try done;
    by apply length_bounds_of_tests.
Qed.

(** C1, the claim as stated fails: user [alice] sends ["<b>"] to room [r1],
    over the socket and over HTTP; the row that is stored holds ["<b>"]
    itself, with its [<] and [>], and not the escaped ["&lt;b&gt;"]. *)
Lemma C1_markup_is_stored_unescaped :
  let d := event_data (JStr (str "r1")) (JStr (str "alice")) (JStr (str "<b>"))
             JUndefined JUndefined in
  let b := {| b_roomId := JStr (str "r1"); b_senderId := JStr (str "alice");
              b_content := JStr (str "<b>") |} in
  List.map content
    (table (run (ChatEvents.chat_send (str "A") (Some d)) two_in_r1))
  = [JStr (str "<b>")]
  /\ match ChatController.postMessage b two_in_r1 with
     | Returned _ w' => List.map content (table w') = [JStr (str "<b>")]
     | Thrown _ => False
     end
  /\ sanitizeHtml (JStr (str "<b>")) = JStr (str "&lt;b&gt;")
  /\ JStr (str "<b>") <> sanitizeHtml (JStr (str "<b>"))
  /\ lt ∈ str "<b>".
Proof.
  repeat split; try reflexivity.
  - discriminate.
  - vm_compute. apply elem_of_cons. by left.
Qed.

(** C1, amended. A send request, over the socket or over HTTP, adds at
    most one row to the message table, and the content of that row is the
    message with the white space at both ends removed, between 1 and 1000
    characters long, and otherwise as it was sent: it is not HTML-escaped
    on the way to the store. *)
Theorem C1_stored_content_is_trimmed_message :
  (forall socket data w,
      let w' := run (ChatEvents.chat_send socket data) w in
      table w' = table w
      \/ exists d s row,
           data = Some d
           /\ f_message d = JStr s
           /\ table w' = table w ++ [row]
           /\ content row = JStr (trim s)
           /\ 1 <= length (trim s) <= 1000)
  /\ (forall b w,
         match ChatController.postMessage b w with
         | Returned response w' =>
             (table w' = table w /\ status response <> 201%Z)
             \/ exists s row,
                  b_content b = JStr s
                  /\ table w' = table w ++ [row]
                  /\ content row = JStr (trim s)
                  /\ 1 <= length (trim s) <= 1000
                  /\ response
                     = {| status := 201;
                          body := BodyCreated row "Message sent successfully" |}
         | Thrown _ => False
         end).
Proof.
  split.
  - intros socket [d|] w; cbn zeta; [|by left].
    rewrite chat_send_outcome.
    destruct (negb (truthy (f_roomId d)) || negb (truthy (f_userId d))
              || negb (truthy (f_message d))); [by left|].
    pose proof (sendMessage_stores (f_roomId d) (f_userId d) (f_message d) w)
      as Hs.
    destruct (ChatService.sendMessage _ _ _ w) as [[data msg|error] w1|w1];
      [|left; cbn [table set_outbox]; by destruct Hs as (-> & _)|done].
    destruct Hs as (s & Hm & -> & Ht & _ & _ & Hl).
    right. exists d, s, (chatModel.new_row (f_roomId d) (f_userId d)
                           (JStr (trim s)) w).
    by destruct (toString (f_roomId d)); cbn [table set_outbox].
  - intros b w. rewrite postMessage_outcome.
    pose proof (sendMessage_stores (b_roomId b) (b_senderId b) (b_content b) w)
      as Hs.
    rewrite sendMessage_outcome in *.
    destruct (negb (truthy (b_roomId b)) || negb (truthy (b_senderId b))
              || negb (truthy (b_content b))); [by left|].
    destruct (b_content b); try by left.
    destruct (length (trim s) =? 0)%nat; [by left|].
    destruct (1000 <? length (trim s))%nat; [by left|].
    cbn zeta in *. destruct (accepts_insert _ _); [|by left].
    destruct Hs as (s' & [= <-] & _ & Ht & _ & _ & Hl).
    right. by exists s, (chatModel.new_row (b_roomId b) (b_senderId b)
                           (JStr (trim s)) w).
Qed.

End Stored.

(** ** Sending and the rate limiter *)

Section SendingUnlimited.

Import ValidationMiddleware SocketIO.

Lemma nonempty_of_trim s : 1 <= length (trim s) -> s <> [].
Proof. intros H ->. rewrite trim_nil in H. simpl in H. lia. Qed.

(** A request that is in order is stored and then sent to the room; the
    log line that follows fails when the user identifier cannot be turned
    into text. *)
Lemma chat_send_accepted socket d s room w :
  truthy (f_roomId d) = true ->
  truthy (f_userId d) = true ->
  f_message d = JStr s ->
  1 <= length (trim s) <= 1000 ->
  accepts_insert (engine w)
    (chatModel.new_row (f_roomId d) (f_userId d) (JStr (trim s)) w) = true ->
  toString (f_roomId d) = Some room ->
  run (ChatEvents.chat_send socket (Some d)) w
  = let row := chatModel.new_row (f_roomId d) (f_userId d) (JStr (trim s)) w in
    set_outbox
      (outbox w ++ List.map (chat_receive row socket) (members_of room w)
       ++ (if converts (f_userId d) then []
           else [chat_error socket "Failed to send message"]))
      (set_table (table w ++ [row])
         (set_queries
            (queries w
             ++ [InsertMessage (f_roomId d) (f_userId d) (JStr (trim s))]) w)).
Proof.
  intros Hr Hu Hm Hl Hacc Hroom.
  rewrite chat_send_outcome, sendMessage_outcome, Hr, Hu, Hm.
  assert (Hs : s <> []) by (apply nonempty_of_trim; lia).
  destruct s as [|u s]; [done|]. cbn [truthy negb orb].
  replace (length (trim (u :: s)) =? 0)%nat with false
    by (symmetry; apply Nat.eqb_neq; lia).
  replace (1000 <? length (trim (u :: s)))%nat with false
    by (symmetry; apply Nat.ltb_ge; lia).
  cbn zeta. rewrite Hacc, Hroom. unfold log_failure. cbn [forallb].
  rewrite (converts_of_toString _ _ Hroom), andb_true_r. reflexivity.
Qed.

(** C2, the claim as stated fails: socket [A] and user [alice] have both
    used up their window, [checkRateLimit] denies either of them, and the
    message [alice] sends from [A] is stored all the same and sent to both
    members of the room. *)
Lemma C2_limited_sender_is_served :
  let w := two_in_r1_limited in
  let d := event_data (JStr (str "r1")) (JStr (str "alice"))
             (JStr (str "hello")) JUndefined JUndefined in
  let row := chatModel.new_row (JStr (str "r1")) (JStr (str "alice"))
               (JStr (str "hello")) w in
  let w' := run (ChatEvents.chat_send (str "A") (Some d)) w in
  fst (checkRateLimit (clock w) (str "A") None None (rateLimitStore w)) = false
  /\ fst (checkRateLimit (clock w) (str "alice") None None (rateLimitStore w))
     = false
  /\ table w' = [row]
  /\ outbox w' = [chat_receive row (str "A") (str "A");
                  chat_receive row (str "A") (str "B")].
Proof. repeat split; vm_compute; reflexivity. Qed.

(** C2, amended. [chat:send] applies no rate limit: the handler neither
    reads nor writes the store of rate-limit windows, so whatever that
    store holds the request is handled the same way and the store is left
    as it was; a request whose [roomId] and [userId] are strings that are
    not empty, with a message of 1 to 1000 characters after trimming,
    which the message store takes, is stored and sent to every member of
    the room and to nobody else, also when [checkRateLimit] would deny its
    sender.  A request that adds no row to the table has one effect on the
    sockets: a [chat:error] to the caller. *)
Theorem C2_chat_send_ignores_rate_limit :
  (forall socket data w store,
      run (ChatEvents.chat_send socket data) (set_rateLimitStore store w)
      = set_rateLimitStore store (run (ChatEvents.chat_send socket data) w))
  /\ (forall socket d s room user w,
         f_roomId d = JStr room -> room <> [] ->
         f_userId d = JStr user -> user <> [] ->
         f_message d = JStr s ->
         1 <= length (trim s) <= 1000 ->
         accepts_insert (engine w)
           (chatModel.new_row (f_roomId d) (f_userId d) (JStr (trim s)) w)
         = true ->
         let row :=
           chatModel.new_row (f_roomId d) (f_userId d) (JStr (trim s)) w in
         let w' := run (ChatEvents.chat_send socket (Some d)) w in
         table w' = table w ++ [row]
         /\ outbox w'
            = outbox w ++ List.map (chat_receive row socket) (members_of room w)
         /\ rateLimitStore w' = rateLimitStore w)
  /\ (forall socket data w,
         let w' := run (ChatEvents.chat_send socket data) w in
         (table w' = table w
          /\ exists reason, outbox w' = outbox w ++ [chat_error socket reason])
         \/ exists row, table w' = table w ++ [row]).
Proof.
  split; [|split]; cycle 2.
  - intros socket [d|] w; cbn zeta; [|left; split; [done|by eexists]].
    rewrite chat_send_outcome, sendMessage_outcome.
    destruct (negb (truthy (f_roomId d)) || negb (truthy (f_userId d))
              || negb (truthy (f_message d)));
      [left; split; [done|by eexists]|].
    destruct (f_message d); try (left; split; [done|by eexists]).
    destruct (length (trim s) =? 0)%nat; [left; split; [done|by eexists]|].
    destruct (1000 <? length (trim s))%nat;
      [left; split; [done|by eexists]|].
    cbn zeta. destruct (accepts_insert _ _);
      [|left; split; [done|by eexists]].
    right. eexists. by destruct (toString (f_roomId d)).
  - intros socket [d|] w store; [|reflexivity].
    rewrite !chat_send_outcome, !sendMessage_outcome.
    destruct (negb (truthy (f_roomId d)) || negb (truthy (f_userId d))
              || negb (truthy (f_message d))); [reflexivity|].
    destruct (f_message d); try reflexivity.
    destruct (length (trim s) =? 0)%nat; [reflexivity|].
    destruct (1000 <? length (trim s))%nat; [reflexivity|].
    cbn zeta.
    change (engine (set_rateLimitStore store w)) with (engine w).
    change (chatModel.new_row (f_roomId d) (f_userId d) (JStr (trim s))
              (set_rateLimitStore store w))
      with (chatModel.new_row (f_roomId d) (f_userId d) (JStr (trim s)) w).
    destruct (accepts_insert _ _); [|reflexivity].
    by destruct (toString (f_roomId d)).
  - intros socket d s room user w Hr Hroom Hu Huser Hm Hl Hacc row w'.
    subst w'.
    rewrite (chat_send_accepted socket d s room w); try done.
    + assert (Hc : converts (f_userId d) = true) by (by rewrite Hu).
      cbn zeta. rewrite Hc, app_nil_r. by repeat split.
    + rewrite Hr. by destruct room.
    + rewrite Hu. by destruct user.
    + by rewrite Hr.
Qed.

(** An instance of C2: the message of the sender who is over the limit. *)
Lemma C2_chat_send_ignores_rate_limit_witness :
  let w := two_in_r1_limited in
  let d := event_data (JStr (str "r1")) (JStr (str "alice"))
             (JStr (str "hello")) JUndefined JUndefined in
  let row := chatModel.new_row (JStr (str "r1")) (JStr (str "alice"))
               (JStr (str "hello")) w in
  table (run (ChatEvents.chat_send (str "A") (Some d)) w) = table w ++ [row].
Proof.
  intros w d row.
  assert (Hl : 1 <= length (trim (str "hello")) <= 1000)
    by (vm_compute; lia).
  assert (Hr : str "r1" <> []) by discriminate.
  assert (Hu : str "alice" <> []) by discriminate.
  exact (proj1 (proj1 (proj2 C2_chat_send_ignores_rate_limit) (str "A") d
                  (str "hello") (str "r1") (str "alice") w eq_refl Hr
                  eq_refl Hu eq_refl Hl eq_refl)).
Defined.

End SendingUnlimited.

(** ** History *)

Section History.

Import ValidationMiddleware SocketIO.

Lemma default_param_idem z v :
  default_param (JNum z) (default_param (JNum z) v)
  = default_param (JNum z) v.
Proof. by destruct v. Qed.

(** [chat:getHistory], case by case. *)
Lemma chat_getHistory_outcome socket data w :
  run (ChatEvents.chat_getHistory socket data) w =
    let d := default no_fields data in
    let roomId := f_roomId d in
    let limit := default_param (JNum 50) (f_limit d) in
    let offset := default_param (JNum 0) (f_offset d) in
    if negb (truthy roomId)
    then set_outbox (outbox w ++ [chat_error socket "roomId is required"]) w
    else
      let asked :=
        set_queries (queries w ++ [SelectMessages roomId limit offset]) w in
      match answer_select (engine w) (table w) roomId limit offset with
      | Some rows =>
          set_outbox
            (outbox w ++ [chat_history socket rows roomId limit offset]) asked
      | None =>
          set_outbox
            (outbox w
             ++ [chat_error socket "Failed to retrieve chat history"]) asked
      end.
Proof.
  unfold run, ChatEvents.chat_getHistory, try_catch, bind, ret. cbn zeta.
  destruct (truthy (f_roomId (default no_fields data))) eqn:Hr;
    [|reflexivity].
  cbn [negb].
  unfold ChatService.getChatHistory, chatModel.getMessagesByRoom, try_catch,
    bind, ret.
  rewrite Hr. cbn [negb]. rewrite !default_param_idem.
  by destruct (answer_select _ _ _ _ _).
Qed.

(** What [validatePagination] makes of one parameter that is given. *)
Lemma validatePagination_valid limit offset n m :
  validatePagination limit offset = Normal (IsValid (n, m)) ->
  (1 <= n <= 100)%Z /\ (0 <= m)%Z
  /\ (limit = JUndefined /\ n = 50%Z
      \/ limit <> JUndefined /\ parseInt limit = Normal (Some n))
  /\ (offset = JUndefined /\ m = 0%Z
      \/ offset <> JUndefined /\ parseInt offset = Normal (Some m)).
Proof.
  assert (Hoff : forall l,
             match offset with
             | JUndefined => Normal (IsValid (l, 0%Z))
             | _ =>
                 match parseInt offset with
                 | Abrupt => Abrupt
                 | Normal None =>
                     Normal (NotValid "offset must be a non-negative integer")
                 | Normal (Some parsedOffset) =>
                     if (parsedOffset <? 0)%Z
                     then Normal
                            (NotValid "offset must be a non-negative integer")
                     else Normal (IsValid (l, parsedOffset))
                 end
             end = Normal (IsValid (n, m)) ->
             l = n /\ (0 <= m)%Z
             /\ (offset = JUndefined /\ m = 0%Z
                 \/ offset <> JUndefined /\ parseInt offset = Normal (Some m))).
  { intros l H.
    destruct offset;
      try (injection H as <- <-; repeat split; solve [lia|by left]);
      (lazymatch type of H with
       | match parseInt ?v with _ => _ end = _ =>
           destruct (parseInt v) as [[po|]|] eqn:Hp
       end; try discriminate;
       destruct (Z.ltb_spec po 0); try discriminate;
       injection H as <- <-; repeat split; solve [lia|right; by split]). }
  unfold validatePagination. cbn zeta. intros H.
  destruct limit;
    try (apply Hoff in H as (<- & Hm & Ho);
         repeat split; solve [lia|by left|done]);
    (lazymatch type of H with
     | match parseInt ?v with _ => _ end = _ =>
         destruct (parseInt v) as [[pl|]|] eqn:Hp
     end; try discriminate;
     destruct (Z.ltb_spec pl 1); try discriminate;
     destruct (Z.ltb_spec 100 pl); try discriminate;
     apply Hoff in H as (<- & Hm & Ho);
     repeat split; solve [lia|right; by split|done]).
Qed.

(** C4, the claim as stated fails: socket [A] asks for the history of
    room [r1] with limit 101, which [validatePagination] turns down; the
    handler sends the query to the store with [LIMIT 101] and answers
    [chat:history], and no [chat:error]. *)
Lemma C4_limit_101_reaches_store :
  let d := event_data (JStr (str "r1")) JUndefined JUndefined (JNum 101)
             (JNum 0) in
  let w' := run (ChatEvents.chat_getHistory (str "A") (Some d)) two_in_r1 in
  validatePagination (JNum 101) (JNum 0)
  = Normal (NotValid "limit cannot exceed 100")
  /\ queries w' = [SelectMessages (JStr (str "r1")) (JNum 101) (JNum 0)]
  /\ outbox w'
     = [chat_history (str "A") [] (JStr (str "r1")) (JNum 101) (JNum 0)].
Proof. repeat split; reflexivity. Qed.

(** C4, amended. A [chat:getHistory] request with a [roomId] is passed to
    the message store with the limit and the offset as the client gave
    them, 50 standing in for an absent limit and 0 for an absent offset;
    the handler does not call [validatePagination] and turns no limit or
    offset down itself: the caller gets [chat:history] with what the store
    answers, or [chat:error] when the store rejects the query.
    [validatePagination] on its own gives limit 50 and offset 0 for absent
    parameters, fails for (101, 0), (0, 0) and (-1, 5), and whenever it
    succeeds the limit is the parsed one and lies in [1,100] and the
    offset is the parsed one and is not negative. *)
Theorem C4_getHistory_forwards_limit_and_offset :
  (forall socket d w,
      truthy (f_roomId d) = true ->
      let limit := default_param (JNum 50) (f_limit d) in
      let offset := default_param (JNum 0) (f_offset d) in
      let w' := run (ChatEvents.chat_getHistory socket (Some d)) w in
      queries w' = queries w ++ [SelectMessages (f_roomId d) limit offset]
      /\ table w' = table w
      /\ outbox w'
         = outbox w ++
           [match answer_select (engine w) (table w) (f_roomId d) limit offset
            with
            | Some rows => chat_history socket rows (f_roomId d) limit offset
            | None => chat_error socket "Failed to retrieve chat history"
            end])
  /\ validatePagination JUndefined JUndefined = Normal (IsValid (50%Z, 0%Z))
  /\ validatePagination (JNum 101) (JNum 0)
     = Normal (NotValid "limit cannot exceed 100")
  /\ validatePagination (JNum 0) (JNum 0)
     = Normal (NotValid "limit must be a positive integer")
  /\ validatePagination (JNum (-1)) (JNum 5)
     = Normal (NotValid "limit must be a positive integer")
  /\ (forall limit offset n m,
         validatePagination limit offset = Normal (IsValid (n, m)) ->
         (1 <= n <= 100)%Z /\ (0 <= m)%Z
         /\ (limit = JUndefined /\ n = 50%Z
             \/ limit <> JUndefined /\ parseInt limit = Normal (Some n))
         /\ (offset = JUndefined /\ m = 0%Z
             \/ offset <> JUndefined /\ parseInt offset = Normal (Some m))).
Proof.
  split; [|repeat split; try reflexivity; by eapply validatePagination_valid].
  intros socket d w Hr limit offset w'. subst w'.
  rewrite chat_getHistory_outcome.
  change (default no_fields (Some d)) with d.
  cbn zeta. rewrite Hr. cbn [negb]. fold limit offset.
  by destruct (answer_select _ _ _ _ _).
Qed.

(** An instance of C4: limit 2 and no offset on an empty room. *)
Lemma C4_getHistory_forwards_limit_and_offset_witness :
  let d := event_data (JStr (str "r1")) JUndefined JUndefined (JNum 2)
             JUndefined in
  queries (run (ChatEvents.chat_getHistory (str "A") (Some d)) two_in_r1)
  = [SelectMessages (JStr (str "r1")) (JNum 2) (JNum 0)].
Proof.
  intros d.
  exact (proj1 (proj1 C4_getHistory_forwards_limit_and_offset (str "A") d
                  two_in_r1 eq_refl)).
Defined.

End History.

(** ** Disconnecting *)

Section Disconnecting.

Import SocketIO SocketHandler.

Lemma forEach_notices socket reason rooms :
  forall w,
    forEach
      (fun roomId =>
         if negb (bool_decide (roomId = socket))
         then to_emit socket roomId "userDisconnected"
                (UserDisconnected socket reason)
         else ret tt)
      rooms w
    = Returned tt
        (set_outbox (outbox w ++ disconnect_notices socket reason w rooms) w).
Proof.
  induction rooms as [|r rooms IH]; intros w.
  - simpl. unfold ret, set_outbox. rewrite app_nil_r. by destruct w.
  - cbn [forEach]. unfold bind at 1.
    destruct (negb (bool_decide (r = socket))) eqn:Hr.
    + unfold to_emit, deliver. rewrite IH.
      cbn [disconnect_notices flat_map]. rewrite Hr.
      unfold set_outbox at 1 2 3. cbn [clock engine table queries membership
        outbox rateLimitStore].
      unfold set_outbox. do 2 f_equal.
      rewrite <- app_assoc. reflexivity.
    + unfold ret. rewrite IH.
      cbn [disconnect_notices flat_map]. by rewrite Hr.
Qed.

(** [handleDisconnection] itself, for whatever rooms the socket is in
    when it runs. *)
Lemma handleDisconnection_outcome socket reason w :
  run (handleDisconnection socket reason) w
  = set_outbox
      (outbox w ++ disconnect_notices socket reason w (rooms_of socket w)) w.
Proof.
  unfold run, handleDisconnection. cbn zeta.
  by rewrite forEach_notices.
Qed.

Lemma rooms_of_after_leave_all socket w :
  rooms_of socket (run (leave_all socket) w) = [].
Proof.
  unfold rooms_of, run, leave_all. cbn [membership set_membership].
  induction (membership w) as [|[s r] l IH]; [done|].
  simpl. case_bool_decide as Hs; simpl; [exact IH|].
  by rewrite bool_decide_eq_false_2.
Qed.

(** A socket that closes: it is out of its rooms, and the listener finds
    no room to tell. *)
Lemma on_disconnect_outcome socket reason w :
  run (on_disconnect socket reason) w = run (leave_all socket) w.
Proof.
  unfold on_disconnect. unfold run at 1. unfold bind.
  change (leave_all socket w) with (Returned tt (run (leave_all socket) w)).
  pose proof (handleDisconnection_outcome socket reason
                (run (leave_all socket) w)) as H.
  rewrite rooms_of_after_leave_all in H. unfold run at 1 in H.
  destruct (handleDisconnection socket reason (run (leave_all socket) w))
    as [[] w1|w1]; rewrite H; cbn [disconnect_notices flat_map];
    rewrite app_nil_r; unfold set_outbox; by destruct (run _ w).
Qed.

(** C5.  The code does not do what the claim says.  When a connection
    closes, Socket.IO takes the socket out of all its rooms before the
    [disconnect] listener runs, so [handleDisconnection] finds
    [socket.rooms] empty and sends nothing: the remaining members of the
    rooms the connection had joined receive no event at all.  Afterwards
    the connection is a member of no room, and no other membership has
    changed.  With [A] and [B] in room [r1], [A] closing leaves [B]
    without any event, where [handleDisconnection] run while [A] is still
    in [r1] would have sent [B] the event [userDisconnected]. *)
Theorem C5_disconnect_notifies_nobody :
  (forall socket reason w,
      let w' := run (SocketHandler.on_disconnect socket reason) w in
      outbox w' = outbox w
      /\ rooms_of socket w' = []
      /\ (forall s r,
             (s, r) ∈ membership w'
             <-> (s, r) ∈ membership w /\ s <> socket))
  /\ (let w := two_in_r1 in
      let w' :=
        run (SocketHandler.on_disconnect (str "A") (str "transport close")) w in
      str "r1" ∈ rooms_of (str "A") w
      /\ members_of (str "r1") w = [str "A"; str "B"]
      /\ outbox w' = []
      /\ members_of (str "r1") w' = [str "B"]
      /\ outbox
           (run (SocketHandler.handleDisconnection (str "A")
                   (str "transport close")) w)
         = [user_disconnected (str "A") (str "transport close") (str "B")]).
Proof.
  split.
  - intros socket reason w. cbn zeta. rewrite on_disconnect_outcome.
    split; [reflexivity|]. split; [apply rooms_of_after_leave_all|].
    intros s r. unfold run, leave_all. cbn [membership set_membership].
    rewrite !list_elem_of_In, filter_In, negb_true_iff, bool_decide_eq_false.
    done.
  - cbn zeta. rewrite on_disconnect_outcome.
    repeat split; try reflexivity.
    vm_compute. apply elem_of_cons. right. apply elem_of_cons. by left.
Qed.

End Disconnecting.

(** ** More on the sanitizer *)

Section SanitizerFurther.

Import ValidationMiddleware.

(** The entity of a character, by the kind of character. *)
Lemma html_entity_cases u :
  (u = amp /\ html_entity u = str "&amp;")
  \/ (u = lt /\ html_entity u = str "&lt;")
  \/ (u = gt /\ html_entity u = str "&gt;")
  \/ (u = dquote /\ html_entity u = str "&quot;")
  \/ (u = squote /\ html_entity u = str "&#x27;")
  \/ (u = slash /\ html_entity u = str "&#x2F;")
  \/ (is_special u = false /\ html_entity u = [u]).
Proof.
  unfold html_entity, is_special.
  destruct (N.eqb_spec u amp) as [->|_]; [by left|right].
  destruct (N.eqb_spec u lt) as [->|_]; [by left|right].
  destruct (N.eqb_spec u gt) as [->|_]; [by left|right].
  destruct (N.eqb_spec u dquote) as [->|_]; [by left|right].
  destruct (N.eqb_spec u squote) as [->|_]; [by left|right].
  destruct (N.eqb_spec u slash) as [->|_]; [by left|right].
  done.
Qed.

Lemma is_special_false u :
  is_special u = false ->
  u <> amp /\ u <> lt /\ u <> gt /\ u <> dquote /\ u <> squote /\ u <> slash.
Proof.
  unfold is_special. intros H.
  repeat (apply orb_false_iff in H as [H ?]).
  repeat split; by apply N.eqb_neq.
Qed.

Lemma html_entity_plain u : is_special u = false -> html_entity u = [u].
Proof.
  intros H. destruct (html_entity_cases u)
    as [[-> _]|[[-> _]|[[-> _]|[[-> _]|[[-> _]|[[-> _]|[_ E]]]]]]];
    try discriminate H. exact E.
Qed.

Lemma html_entity_special u : is_special u = true -> 4 <= length (html_entity u).
Proof.
  intros H. destruct (html_entity_cases u)
    as [[-> _]|[[-> _]|[[-> _]|[[-> _]|[[-> _]|[[-> _]|[E _]]]]]]];
    try (vm_compute; lia). congruence.
Qed.

Lemma html_entity_at_most_six u : length (html_entity u) <= 6.
Proof.
  destruct (html_entity_cases u)
    as [[_ ->]|[[_ ->]|[[_ ->]|[[_ ->]|[[_ ->]|[[_ ->]|[_ ->]]]]]]];
    vm_compute; lia.
Qed.

(** No entity holds a markup character other than the [&] it starts
    with. *)
Lemma html_entity_markup_free u :
  Forall (fun x => x <> lt /\ x <> gt /\ x <> dquote /\ x <> squote
                   /\ x <> slash)
    (html_entity u).
Proof.
  destruct (html_entity_cases u)
    as [[_ ->]|[[_ ->]|[[_ ->]|[[_ ->]|[[_ ->]|[[_ ->]|[H ->]]]]]]];
    try (vm_compute; repeat constructor; discriminate).
  apply is_special_false in H as (_ & ? & ? & ? & ? & ?).
  by repeat constructor.
Qed.

Lemma escape_each_app a b :
  escape_each (a ++ b) = escape_each a ++ escape_each b.
Proof.
  induction a as [|u a IH]; simpl; [done|].
  by rewrite IH, app_assoc.
Qed.

(** Two entities that start two equal strings are the entity of the same
    character. *)
Lemma html_entity_prefix_free u v r1 r2 :
  html_entity u ++ r1 = html_entity v ++ r2 -> u = v /\ r1 = r2.
Proof.
  intros H.
  destruct (html_entity_cases u)
    as [[-> Eu]|[[-> Eu]|[[-> Eu]|[[-> Eu]|[[-> Eu]|[[-> Eu]|[Hu Eu]]]]]]];
    destruct (html_entity_cases v)
      as [[-> Ev]|[[-> Ev]|[[-> Ev]|[[-> Ev]|[[-> Ev]|[[-> Ev]|[Hv Ev]]]]]]];
    rewrite ?Eu, ?Ev in H; clear Eu Ev;
    try apply is_special_false in Hu as (? & ? & ? & ? & ? & ?);
    try apply is_special_false in Hv as (? & ? & ? & ? & ? & ?);
    vm_compute in H; try discriminate H;
    injection H; intros; subst; try done.
Qed.

Lemma escape_each_markup_free (s : jsstring) :
  Forall (fun x => x <> lt /\ x <> gt /\ x <> dquote /\ x <> squote
                   /\ x <> slash)
    (escape_each s).
Proof.
  induction s as [|u s IH]; simpl; [constructor|].
  apply Forall_app. split; [apply html_entity_markup_free|exact IH].
Qed.

Lemma escape_each_length_bounds (s : jsstring) :
  length s <= length (escape_each s) <= 6 * length s.
Proof.
  induction s as [|u s IH]; simpl; [lia|].
  rewrite length_app.
  pose proof (html_entity_length u). pose proof (html_entity_at_most_six u).
  lia.
Qed.

(** X1. Whatever the input, the sanitized string holds none of the
    characters [<], [>], double quote, ['] and [/]. *)
Theorem sanitized_string_is_markup_free (s : jsstring) :
  Forall (fun x => x <> lt /\ x <> gt /\ x <> dquote /\ x <> squote
                   /\ x <> slash)
    (sanitize_string s).
Proof.
  rewrite sanitize_string_escape_each. apply escape_each_markup_free.
Qed.

(** X2. Sanitizing loses nothing: two strings with the same sanitized form
    are the same string. *)
Theorem sanitize_string_injective (s1 s2 : jsstring) :
  sanitize_string s1 = sanitize_string s2 -> s1 = s2.
Proof.
  rewrite !sanitize_string_escape_each.
  revert s2. induction s1 as [|u s1 IH]; intros [|v s2] H; simpl in H.
  - done.
  - pose proof (html_entity_length v) as Hl.
    apply (f_equal length) in H. rewrite length_app in H. simpl in H. lia.
  - pose proof (html_entity_length u) as Hl.
    apply (f_equal length) in H. rewrite length_app in H. simpl in H. lia.
  - apply html_entity_prefix_free in H as [-> H]. f_equal. by apply IH.
Qed.

Lemma sanitize_string_injective_witness :
  sanitize_string (str "a<b") = sanitize_string (str "a<b")
  /\ str "a<b" = str "a<b".
Proof.
  split; [reflexivity|].
  exact (sanitize_string_injective (str "a<b") (str "a<b") eq_refl).
Defined.

(** X3. Sanitizing a concatenation is concatenating the sanitized parts,
    and the sanitized string is at least as long as the input and at most
    six times as long. *)
Theorem sanitize_string_app_and_length :
  (forall a b : jsstring,
      sanitize_string (a ++ b) = sanitize_string a ++ sanitize_string b)
  /\ (forall s : jsstring,
         length s <= length (sanitize_string s) <= 6 * length s).
Proof.
  split.
  - intros a b. rewrite !sanitize_string_escape_each. apply escape_each_app.
  - intros s. rewrite sanitize_string_escape_each.
    apply escape_each_length_bounds.
Qed.

(** X4. Sanitizing leaves a string as it is exactly when the string holds
    none of the six characters [&], [<], [>], double quote, ['] and [/]. *)
Theorem sanitize_string_fixed_point (s : jsstring) :
  sanitize_string s = s <-> forallb (fun u => negb (is_special u)) s = true.
Proof.
  rewrite sanitize_string_escape_each. split.
  - intros H.
    assert (Hlen : length (escape_each s) = length s) by (by rewrite H).
    clear H. induction s as [|u s IH]; [done|].
    simpl in *. rewrite length_app in Hlen.
    pose proof (escape_each_length s).
    pose proof (html_entity_length u).
    destruct (is_special u) eqn:Hu.
    + apply html_entity_special in Hu. lia.
    + simpl. apply IH. lia.
  - induction s as [|u s IH]; [done|].
    simpl. intros H. apply andb_true_iff in H as [Hu Hs].
    apply negb_true_iff in Hu.
    rewrite (html_entity_plain u Hu), (IH Hs). reflexivity.
Qed.

End SanitizerFurther.

(** ** Trimming *)

Section Trimming.

Lemma trimStart_split (l : jsstring) :
  exists p, l = p ++ trimStart l /\ forallb is_whitespace p = true.
Proof.
  induction l as [|x l (p & Hl & Hp)]; [by exists []|].
  simpl. destruct (is_whitespace x) eqn:Hx.
  - exists (x :: p). simpl. rewrite Hx, Hp. split; [by f_equal|done].
  - by exists [].
Qed.

Lemma trimStart_head (l : jsstring) x r :
  trimStart l = x :: r -> is_whitespace x = false.
Proof.
  induction l as [|y l IH]; simpl; [done|].
  destruct (is_whitespace y) eqn:Hy; [done|].
  by intros [= <- _].
Qed.

Lemma trimStart_fixed (l : jsstring) x r :
  l = x :: r -> is_whitespace x = false -> trimStart l = l.
Proof. intros -> Hx. simpl. by rewrite Hx. Qed.

Lemma trimStart_idem (l : jsstring) : trimStart (trimStart l) = trimStart l.
Proof.
  destruct (trimStart l) as [|x r] eqn:E; [done|].
  eapply trimStart_fixed; [done|]. by eapply trimStart_head.
Qed.

Lemma length_trimStart (l : jsstring) : length (trimStart l) <= length l.
Proof.
  destruct (trimStart_split l) as (p & Hl & _).
  rewrite Hl at 2. rewrite length_app. lia.
Qed.

(** [trimEnd] keeps a front part of the string. *)
Lemma trimEnd_split (l : jsstring) : exists q, l = trimEnd l ++ q.
Proof.
  unfold trimEnd. destruct (trimStart_split (rev l)) as (p & Hl & _).
  exists (rev p).
  rewrite <- rev_app_distr, <- Hl. by rewrite rev_involutive.
Qed.

Lemma trimEnd_idem (l : jsstring) : trimEnd (trimEnd l) = trimEnd l.
Proof. unfold trimEnd. by rewrite rev_involutive, trimStart_idem. Qed.

Lemma length_trimEnd (l : jsstring) : length (trimEnd l) <= length l.
Proof.
  unfold trimEnd. rewrite length_rev.
  pose proof (length_trimStart (rev l)) as H. by rewrite length_rev in H.
Qed.

Lemma length_trim (s : jsstring) : length (trim s) <= length s.
Proof.
  unfold trim. pose proof (length_trimEnd (trimStart s)).
  pose proof (length_trimStart s). lia.
Qed.

Lemma trimStart_trimEnd (l : jsstring) :
  trimStart l = l -> trimStart (trimEnd l) = trimEnd l.
Proof.
  intros Hl. destruct (trimEnd l) as [|x r] eqn:E; [done|].
  destruct (trimEnd_split l) as (q & Hq). rewrite E in Hq.
  eapply trimStart_fixed; [done|].
  apply (trimStart_head l x (r ++ q)). by rewrite Hl, Hq.
Qed.

Lemma trim_idem (s : jsstring) : trim (trim s) = trim s.
Proof.
  unfold trim.
  rewrite (trimStart_trimEnd (trimStart s)) by apply trimStart_idem.
  apply trimEnd_idem.
Qed.

End Trimming.

(** ** Validators of identifiers and messages *)

Section ValidatorsFurther.

Import ValidationMiddleware.

(** [validateUserId] in one case analysis. *)
Lemma validateUserId_string s :
  validateUserId (JStr s) =
    if bool_decide (s = []) then NotValid "userId is required"
    else if bool_decide (trim s = []) then NotValid "userId cannot be empty"
    else if bool_decide (50 < length s)%nat
         then NotValid "userId too long (max 50 characters)"
         else IsValid tt.
Proof.
  unfold validateUserId.
  destruct s as [|u s]; [reflexivity|].
  cbn [truthy negb]. rewrite bool_decide_eq_false_2 by discriminate.
  destruct (trim (u :: s)) as [|? ?] eqn:Ht; [reflexivity|].
  cbn [length Nat.eqb]. rewrite bool_decide_eq_false_2 by discriminate.
  destruct (50 <? S (length s))%nat eqn:E.
  - apply Nat.ltb_lt in E. by rewrite bool_decide_eq_true_2.
  - apply Nat.ltb_ge in E. rewrite bool_decide_eq_false_2; [done|lia].
Qed.

Lemma validateUserId_valid v u :
  validateUserId v = IsValid u ->
  exists s, v = JStr s /\ trim s <> [] /\ length s <= 50.
Proof.
  destruct v as [| |b|z| |s|o];
    try (unfold validateUserId; simpl; repeat case_match; discriminate).
  rewrite validateUserId_string. repeat case_bool_decide; try discriminate.
  intros _. exists s. repeat split; [done|lia].
Qed.

(** X5. [validateUserId] accepts a value exactly when it is a string that
    is not empty after trimming and has at most 50 characters, white space
    at the ends counted. *)
Theorem validateUserId_accepts (v : jsval) :
  validateUserId v = IsValid tt
  <-> exists s, v = JStr s /\ trim s <> [] /\ length s <= 50.
Proof.
  split.
  - apply validateUserId_valid.
  - intros (s & -> & Ht & Hl). rewrite validateUserId_string.
    assert (s <> []) by (intros ->; by apply Ht).
    repeat case_bool_decide; try done; lia.
Qed.

(** [validateMessage] in one case analysis. *)
Lemma validateMessage_string s :
  validateMessage (JStr s) =
    if bool_decide (s = []) then NotValid "message is required"
    else if bool_decide (trim s = []) then NotValid "message cannot be empty"
    else if bool_decide (1000 < length (trim s))%nat
         then NotValid "message too long (max 1000 characters)"
         else IsValid (sanitize_string (trim s)).
Proof.
  unfold validateMessage.
  destruct s as [|u s]; [reflexivity|].
  cbn [truthy negb]. rewrite bool_decide_eq_false_2 by discriminate.
  cbn zeta.
  destruct (trim (u :: s)) as [|x t] eqn:Ht; [reflexivity|].
  cbn [length Nat.eqb]. rewrite bool_decide_eq_false_2 by discriminate.
  destruct (1000 <? S (length t))%nat eqn:E.
  - apply Nat.ltb_lt in E. by rewrite bool_decide_eq_true_2.
  - apply Nat.ltb_ge in E. rewrite bool_decide_eq_false_2; [done|lia].
Qed.

Lemma validateMessage_valid v t :
  validateMessage v = IsValid t
  <-> exists s, v = JStr s /\ 1 <= length (trim s) <= 1000
                /\ t = sanitize_string (trim s).
Proof.
  split.
  - destruct v as [| |b|z| |s|o];
      try (unfold validateMessage; simpl; repeat case_match; discriminate).
    rewrite validateMessage_string.
    repeat case_bool_decide; try discriminate.
    intros [= <-]. exists s. repeat split; [|lia].
    destruct (trim s); [done|simpl; lia].
  - intros (s & -> & Hl & ->). rewrite validateMessage_string.
    assert (trim s <> []) by (intros E; rewrite E in Hl; simpl in Hl; lia).
    assert (s <> []) by (intros ->; done).
    repeat case_bool_decide; try done; lia.
Qed.

(** X6. [validateMessage] accepts a value exactly when it is a string with
    1 to 1000 characters after trimming (white space at the ends is not
    counted); what it returns is then the sanitized trimmed text, which is
    1 to 6000 characters long and holds none of [<], [>], double quote,
    ['] and [/]. *)
Theorem validateMessage_accepts (v : jsval) (t : jsstring) :
  (validateMessage v = IsValid t
   <-> exists s, v = JStr s /\ 1 <= length (trim s) <= 1000
                 /\ t = sanitize_string (trim s))
  /\ (validateMessage v = IsValid t ->
      1 <= length t <= 6 * 1000
      /\ Forall (fun x => x <> lt /\ x <> gt /\ x <> dquote /\ x <> squote
                          /\ x <> slash) t).
Proof.
  pose proof (validateMessage_valid v t) as Hiff.
  split; [exact Hiff|].
  intros H. apply Hiff in H as (s & -> & Hl & ->).
  pose proof (escape_each_length_bounds (trim s)) as Hb.
  rewrite sanitize_string_escape_each.
  split; [lia|apply escape_each_markup_free].
Qed.

Lemma validateMessage_accepts_witness :
  validateMessage (JStr (str " <b> ")) = IsValid (str "&lt;b&gt;")
  /\ 1 <= length (str "&lt;b&gt;") <= 6 * 1000.
Proof.
  split; [reflexivity|].
  exact (proj1 (proj2 (validateMessage_accepts (JStr (str " <b> "))
                         (str "&lt;b&gt;")) eq_refl)).
Defined.

End ValidatorsFurther.

(** ** Validators of whole payloads *)

Section PayloadValidators.

Import ValidationMiddleware.

Lemma validateRoomId_valid v u :
  validateRoomId v = IsValid u ->
  exists s, v = JStr s /\ trim s <> [] /\ length s <= 100.
Proof.
  destruct v as [| |b|z| |s|o];
    try (unfold validateRoomId; simpl; repeat case_match; discriminate).
  rewrite validateRoomId_string. repeat case_bool_decide; try discriminate.
  intros _. exists s. repeat split; [done|lia].
Qed.

Lemma trimmed_length_bounds (s : jsstring) n :
  trim s <> [] -> length s <= n -> 1 <= length (trim s) <= n.
Proof.
  intros Ht Hl. pose proof (length_trim s).
  destruct (trim s); [done|simpl in *; lia].
Qed.

(** The errors of [validateUserId], reworded for a player. *)
Lemma playerId_wording v error :
  validateUserId v = NotValid error ->
  replace_first "userId" "playerId" error
  ∈ ["playerId is required"; "playerId must be a string";
     "playerId cannot be empty"; "playerId too long (max 50 characters)"].
Proof.
  destruct v as [| |b|z| |s|o];
    try (unfold validateUserId; simpl; repeat case_match;
         intros [= <-]; vm_compute; set_solver).
Qed.

(** X7. [validateChatData] never throws.  When it succeeds, the three
    fields were strings; the room and user identifiers come back trimmed,
    1 to 100 and 1 to 50 characters long, and trimming them again changes
    nothing; the message comes back trimmed and sanitized, 1 to 6000
    characters long.  When it fails, the error is that of the first of
    [validateRoomId], [validateUserId], [validateMessage] that fails, in
    this order. *)
Theorem validateChatData_result (data : option ChatData) :
  let d := default {| chat_roomId := JUndefined; chat_userId := JUndefined;
                      chat_message := JUndefined |} data in
  match validateChatData data with
  | Abrupt => False
  | Normal (IsValid r) =>
      exists rs us ms,
        chat_roomId d = JStr rs /\ chat_userId d = JStr us
        /\ chat_message d = JStr ms
        /\ r = {| sanitized_roomId := trim rs;
                  sanitized_userId := trim us;
                  sanitized_message := sanitize_string (trim ms) |}
        /\ 1 <= length (sanitized_roomId r) <= 100
        /\ 1 <= length (sanitized_userId r) <= 50
        /\ 1 <= length (sanitized_message r) <= 6 * 1000
        /\ trim (sanitized_roomId r) = sanitized_roomId r
        /\ trim (sanitized_userId r) = sanitized_userId r
  | Normal (NotValid error) =>
      validateRoomId (chat_roomId d) = NotValid error
      \/ (validateRoomId (chat_roomId d) = IsValid tt
          /\ validateUserId (chat_userId d) = NotValid error)
      \/ (validateRoomId (chat_roomId d) = IsValid tt
          /\ validateUserId (chat_userId d) = IsValid tt
          /\ validateMessage (chat_message d) = NotValid error)
  end.
Proof.
  cbn zeta. unfold validateChatData. cbn zeta.
  set (d := default _ data).
  destruct (validateRoomId (chat_roomId d)) as [[]|e1] eqn:Hr; [|by left].
  destruct (validateUserId (chat_userId d)) as [[]|e2] eqn:Hu;
    [|right; by left].
  destruct (validateMessage (chat_message d)) as [m|e3] eqn:Hm;
    [|right; by right].
  apply validateRoomId_valid in Hr as (rs & Er & Hrt & Hrl).
  apply validateUserId_valid in Hu as (us & Eu & Hut & Hul).
  apply validateMessage_valid in Hm as (ms & Em & Hml & ->).
  pose proof (escape_each_length_bounds (trim ms)) as Hb.
  rewrite <- sanitize_string_escape_each in Hb.
  rewrite Er, Eu. cbn [trim_of].
  exists rs, us, ms. cbn [sanitized_roomId sanitized_userId sanitized_message].
  pose proof (trimmed_length_bounds rs 100 Hrt Hrl).
  pose proof (trimmed_length_bounds us 50 Hut Hul).
  repeat split; try done; try apply trim_idem; lia.
Qed.

(** X8. [validateGameMoveData] never throws.  It succeeds exactly when
    [validateRoomId] accepts the room identifier, [validateUserId] the
    player identifier and [validateGamePosition] the position: the
    identifiers are then strings of at most 100 and 50 characters that are
    not blank, the position is a number from 0 to 8, and the result holds
    the identifiers trimmed and the position as given.  It fails with the
    error of the first validator that rejects, in this order; when that is
    the player identifier, the error speaks of [playerId], not of
    [userId]. *)
Theorem validateGameMoveData_result (data : option GameMoveData) :
  let d := default {| move_roomId := JUndefined; move_playerId := JUndefined;
                      move_position := JUndefined |} data in
  match validateGameMoveData data with
  | Abrupt => False
  | Normal (IsValid r) =>
      validateRoomId (move_roomId d) = IsValid tt
      /\ validateUserId (move_playerId d) = IsValid tt
      /\ validateGamePosition (move_position d) = IsValid tt
      /\ exists rs ps z,
          move_roomId d = JStr rs /\ move_playerId d = JStr ps
          /\ move_position d = JNum z
          /\ r = {| sanitized_room := trim rs;
                    sanitized_playerId := trim ps;
                    sanitized_position := JNum z |}
          /\ length rs <= 100 /\ 1 <= length (trim rs)
          /\ length ps <= 50 /\ 1 <= length (trim ps)
          /\ (0 <= z <= 8)%Z
  | Normal (NotValid error) =>
      validateRoomId (move_roomId d) = NotValid error
      \/ (validateRoomId (move_roomId d) = IsValid tt
          /\ isValid (validateUserId (move_playerId d)) = false
          /\ error ∈ ["playerId is required"; "playerId must be a string";
                      "playerId cannot be empty";
                      "playerId too long (max 50 characters)"])
      \/ (validateRoomId (move_roomId d) = IsValid tt
          /\ validateUserId (move_playerId d) = IsValid tt
          /\ validateGamePosition (move_position d) = NotValid error)
  end.
Proof.
  cbn zeta. unfold validateGameMoveData. cbn zeta.
  set (d := default _ data).
  destruct (validateRoomId (move_roomId d)) as [[]|e1] eqn:Hr; [|by left].
  destruct (validateUserId (move_playerId d)) as [[]|e2] eqn:Hu.
  2:{ right. left. repeat split; try done. by eapply playerId_wording. }
  destruct (validateGamePosition (move_position d)) as [[]|e3] eqn:Hp;
    [|right; by right].
  apply validateRoomId_valid in Hr as (rs & Er & Hrt & Hrl).
  apply validateUserId_valid in Hu as (us & Eu & Hut & Hul).
  rewrite Er, Eu. cbn [trim_of].
  do 3 (split; [reflexivity|]).
  unfold validateGamePosition in Hp.
  destruct (move_position d) as [| |b|z| |s|o]; try discriminate.
  destruct (infinity <=? Z.abs (to_double z))%Z; [discriminate|].
  destruct ((z <? 0)%Z || (8 <? z)%Z) eqn:Hz; [discriminate|].
  apply orb_false_iff in Hz as [Hz0 Hz8].
  apply Z.ltb_ge in Hz0, Hz8.
  exists rs, us, z.
  pose proof (trimmed_length_bounds rs 100 Hrt Hrl).
  pose proof (trimmed_length_bounds us 50 Hut Hul).
  repeat split; try done; lia.
Qed.

End PayloadValidators.

(** ** More on the rate limiter *)

Section RateLimiterFurther.

Import ValidationMiddleware.

Implicit Types (store : option (gmap jsstring ClientData)).
Implicit Types (identifier other : jsstring).

Lemma checkRateLimit_other now identifier other mx win store :
  identifier <> other ->
  default ∅ (snd (checkRateLimit now identifier mx win store)) !! other
  = default ∅ store !! other.
Proof.
  intros Hne. unfold checkRateLimit. cbn zeta.
  destruct (default ∅ store !! identifier) as [cd|]; simpl.
  - destruct (resetTime cd <? now)%Z; simpl; [by rewrite lookup_insert_ne|].
    destruct (default 100%Z mx <=? requests cd)%Z; simpl;
      [done|by rewrite lookup_insert_ne].
  - by rewrite lookup_insert_ne.
Qed.

(** The answer to a call depends on the caller's own entry only. *)
Lemma checkRateLimit_answer_local now identifier mx win store store' :
  default ∅ store !! identifier = default ∅ store' !! identifier ->
  fst (checkRateLimit now identifier mx win store)
  = fst (checkRateLimit now identifier mx win store').
Proof.
  intros H. unfold checkRateLimit. cbn zeta. rewrite H.
  destruct (default ∅ store' !! identifier) as [cd|]; [|done].
  destruct (resetTime cd <? now)%Z; [done|].
  by destruct (default 100%Z mx <=? requests cd)%Z.
Qed.

(** X9. Identifiers do not interfere: a call for one identifier leaves the
    entry of every other identifier as it was, and so does not change the
    answer the other identifier gets next. *)
Theorem checkRateLimit_isolated now identifier other mx win store :
  identifier <> other ->
  default ∅ (snd (checkRateLimit now identifier mx win store)) !! other
  = default ∅ store !! other
  /\ (forall now' mx' win',
         fst (checkRateLimit now' other mx' win'
                (snd (checkRateLimit now identifier mx win store)))
         = fst (checkRateLimit now' other mx' win' store)).
Proof.
  intros Hne. split; [by apply checkRateLimit_other|].
  intros. apply checkRateLimit_answer_local. by apply checkRateLimit_other.
Qed.

Lemma checkRateLimit_isolated_witness :
  fst (checkRateLimit 5 (str "y") (Some 1%Z) None
         (snd (checkRateLimit 0 (str "x") (Some 1%Z) None None)))
  = fst (checkRateLimit 5 (str "y") (Some 1%Z) None None).
Proof.
  assert (Hne : str "x" <> str "y") by discriminate.
  exact (proj2 (checkRateLimit_isolated 0 (str "x") (str "y") (Some 1%Z) None
                  None Hne) 5%Z (Some 1%Z) None).
Defined.

(** Calls inside an open window: the call that finds [k + j] requests
    counted is allowed when that is less than the maximum. *)
Lemma check_at_open_window identifier mx win :
  forall (ts : list Z) (m : gmap jsstring ClientData) (k R : Z),
    m !! identifier = Some {| requests := k; resetTime := R |} ->
    Forall (fun t => (t <= R)%Z) ts ->
    fst (check_at ts identifier (Some mx) (Some win) (Some m))
    = List.map (fun j => (k + Z.of_nat j <? mx)%Z) (seq 0 (length ts)).
Proof.
  induction ts as [|t ts IH]; intros m k R Hm Hts; [reflexivity|].
  apply Forall_cons in Hts as [Ht Hts].
  cbn [check_at length seq List.map].
  destruct (Z.ltb_spec (k + Z.of_nat 0) mx) as [Hk|Hk].
  - rewrite (check_counted t identifier mx win (Some m) _ Hm)
      by (simpl; lia).
    cbn [default from_option id requests resetTime].
    specialize (IH (<[identifier := {| requests := k + 1; resetTime := R |}]> m)
                  (k + 1)%Z R (lookup_insert_eq _ _ _) Hts).
    destruct (check_at ts _ _ _ _) as [rest store'']. simpl in *.
    rewrite IH, <- seq_shift, map_map. f_equal.
    apply map_ext. intros j. f_equal. lia.
  - rewrite (check_denied t identifier mx win (Some m) _ Hm)
      by (simpl; lia).
    cbn [default from_option id].
    specialize (IH m k R Hm Hts).
    destruct (check_at ts _ _ _ _) as [rest store'']. simpl in *.
    rewrite IH, <- seq_shift, map_map. f_equal.
    apply map_ext. intros j.
    transitivity false; [|symmetry]; apply Z.ltb_ge; lia.
Qed.

Lemma allowed_count_open_window (k mx : Z) (n a : nat) :
  allowed_count
    (List.map (fun j => (k + Z.of_nat j <? mx)%Z) (seq a n))
  <= Z.to_nat (Z.max 0 (mx - k - Z.of_nat a)).
Proof.
  unfold allowed_count. revert a.
  induction n as [|n IH]; intros a; simpl; [lia|].
  specialize (IH (S a)).
  destruct (Z.ltb_spec (k + Z.of_nat a) mx); simpl; lia.
Qed.

(** X10. A window admits at most [maxRequests] calls, and always the
    first: when a call at [t1] opens a window (the identifier is new or
    its last window is over) and any number of further calls come no later
    than [t1 + windowMs], the opening call is allowed, the [j]-th call
    after it is allowed exactly when [j < maxRequests], and so no more
    than [max(1, maxRequests)] calls are allowed in all. *)
Theorem checkRateLimit_window_quota identifier mx win store
    (t1 : Z) (ts : list Z) :
  (default ∅ store !! identifier = None
   \/ exists clientData,
        default ∅ store !! identifier = Some clientData
        /\ (resetTime clientData < t1)%Z) ->
  Forall (fun t => (t <= t1 + win)%Z) ts ->
  let answers :=
    fst (check_at (t1 :: ts) identifier (Some mx) (Some win) store) in
  answers
  = true :: List.map (fun j => (1 + Z.of_nat j <? mx)%Z) (seq 0 (length ts))
  /\ allowed_count answers <= Z.to_nat (Z.max 1 mx).
Proof.
  intros Hopen Hts. cbn zeta.
  assert (E : fst (check_at (t1 :: ts) identifier (Some mx) (Some win) store)
              = true :: List.map (fun j => (1 + Z.of_nat j <? mx)%Z)
                          (seq 0 (length ts))).
  { cbn [check_at].
    rewrite (check_opens_window t1 identifier mx win store Hopen).
    pose proof (check_at_open_window identifier mx win ts
                  (<[identifier := fresh_window t1 win]> (default ∅ store))
                  1%Z (t1 + win)%Z (lookup_insert_eq _ _ _) Hts) as H.
    destruct (check_at ts _ _ _ _) as [rest store'']. simpl in *.
    by rewrite H. }
  split; [exact E|].
  rewrite E.
  pose proof (allowed_count_open_window 1 mx (length ts) 0) as H.
  unfold allowed_count in *. simpl. lia.
Qed.

Lemma checkRateLimit_window_quota_witness :
  allowed_count
    (fst (check_at [0; 1; 2; 3; 4; 60000]%Z (str "x") (Some 2%Z)
            (Some 60000%Z) None))
  <= Z.to_nat (Z.max 1 2).
Proof.
  refine (proj2 (checkRateLimit_window_quota (str "x") 2 60000 None 0
                   [1; 2; 3; 4; 60000]%Z _ _)).
  - left. reflexivity.
  - repeat constructor; lia.
Defined.

End RateLimiterFurther.

(** ** Joining and leaving a room *)

Section JoiningAndLeaving.

Import SocketIO.

Lemma run_join_membership socket room w :
  membership (run (join socket room) w)
  = if bool_decide ((socket, room) ∈ membership w) then membership w
    else membership w ++ [(socket, room)].
Proof. unfold run, join. by case_bool_decide. Qed.

Lemma run_join_rest socket room w :
  let w1 := run (join socket room) w in
  clock w1 = clock w /\ table w1 = table w /\ outbox w1 = outbox w
  /\ queries w1 = queries w.
Proof. unfold run, join. by case_bool_decide. Qed.

Lemma run_leave_membership socket room w :
  membership (run (leave socket room) w)
  = List.filter (fun p => negb (bool_decide (p = (socket, room))))
      (membership w).
Proof. reflexivity. Qed.

Lemma filter_out_appended {A} `{EqDecision A} (p : A) (l : list A) :
  p ∉ l ->
  List.filter (fun q => negb (bool_decide (q = p))) (l ++ [p]) = l.
Proof.
  intros Hp. rewrite List.filter_app. simpl.
  rewrite bool_decide_eq_true_2 by done. simpl. rewrite app_nil_r.
  induction l as [|x l IH]; [done|].
  apply not_elem_of_cons in Hp as [Hx Hl]. simpl.
  rewrite bool_decide_eq_false_2 by done. simpl. f_equal. by apply IH.
Qed.

Lemma elem_of_members_of s room w :
  s ∈ members_of room w <-> (s, room) ∈ membership w.
Proof.
  unfold members_of. rewrite !list_elem_of_In, in_map_iff. split.
  - intros ([s' r] & <- & Hin). apply filter_In in Hin as [Hin Hr].
    apply bool_decide_eq_true in Hr. simpl in *. by subst.
  - intros Hin. exists (s, room). split; [done|].
    apply filter_In. split; [done|]. by apply bool_decide_eq_true.
Qed.

Lemma elem_of_others_in s socket room w :
  s ∈ others_in socket room w
  <-> s ∈ members_of room w /\ s ∉ members_of socket w.
Proof.
  unfold others_in. rewrite !list_elem_of_In, filter_In.
  rewrite negb_true_iff, bool_decide_eq_false.
  by rewrite <- !list_elem_of_In.
Qed.

(** [chat:join] on a request that is in order: the last thing sent is the
    report of the log line, when that throws. *)
Lemma chat_join_accepted socket d room w :
  truthy (f_roomId d) = true ->
  truthy (f_userId d) = true ->
  toString (f_roomId d) = Some room ->
  run (ChatEvents.chat_join socket (Some d)) w
  = let w1 := run (join socket room) w in
    set_outbox
      (outbox w
       ++ List.map (chat_userJoined (f_userId d) socket (clock w))
            (others_in socket room w1)
       ++ [chat_joined socket (f_roomId d) (f_userId d)]
       ++ log_failure socket [f_userId d; f_roomId d]
            "Failed to join chat room")
      w1.
Proof.
  intros Hr Hu Hroom. cbn zeta.
  unfold run at 1. unfold ChatEvents.chat_join, try_catch, bind, destructure,
    lift_option, ret, date_now, to_emit, emit, deliver.
  rewrite Hr, Hu, Hroom. cbn [negb orb].
  unfold run, join.
  case_bool_decide; cbn beta iota; rewrite console_log_outcome;
    unfold log_failure;
    destruct (forallb converts [f_userId d; f_roomId d]);
    cbn [set_outbox outbox clock set_membership]; unfold set_outbox; cbn;
    by rewrite <- ?app_assoc, ?app_nil_r.
Qed.

(** [chat:leave] on a request that is in order. *)
Lemma chat_leave_accepted socket d room w :
  truthy (f_roomId d) = true ->
  toString (f_roomId d) = Some room ->
  run (ChatEvents.chat_leave socket (Some d)) w
  = let w1 := run (leave socket room) w in
    set_outbox
      (outbox w
       ++ List.map (chat_userLeft (f_userId d) socket (clock w))
            (others_in socket room w1)
       ++ [chat_left socket (f_roomId d) (f_userId d)]
       ++ log_failure socket [f_userId d; f_roomId d]
            "Failed to leave chat room")
      w1.
Proof.
  intros Hr Hroom. cbn zeta.
  unfold run at 1. unfold ChatEvents.chat_leave, try_catch, bind, destructure,
    lift_option, ret, date_now, to_emit, emit, deliver.
  rewrite Hr, Hroom. cbn [negb].
  unfold run, leave. cbn beta iota.
  rewrite console_log_outcome. unfold log_failure.
  destruct (forallb converts [f_userId d; f_roomId d]);
    cbn [set_outbox outbox clock set_membership]; unfold set_outbox; cbn;
    by rewrite <- ?app_assoc, ?app_nil_r.
Qed.

(** X11. A [chat:join] request with [roomId] and [userId] makes the socket
    a member of the room named by the text of [roomId] and changes no
    other membership; joining a room the socket is already in leaves the
    membership as it is.  [chat:userJoined], with the user and the socket,
    is sent to the members of the room that are not in the room named
    after the socket, which leaves out the socket itself for as long as it
    is in the room it was put in when it connected.  Then the socket is
    sent [chat:joined], and after that [chat:error] as well when the
    [userId] cannot be turned into text for the log line.  Nothing is
    stored. *)
Theorem chat_join_joins socket d room w :
  truthy (f_roomId d) = true ->
  truthy (f_userId d) = true ->
  toString (f_roomId d) = Some room ->
  let w' := run (ChatEvents.chat_join socket (Some d)) w in
  socket ∈ members_of room w'
  /\ (forall s r,
         (s, r) ∈ membership w'
         <-> (s, r) ∈ membership w \/ (s, r) = (socket, room))
  /\ ((socket, room) ∈ membership w -> membership w' = membership w)
  /\ outbox w'
     = outbox w
       ++ List.map (chat_userJoined (f_userId d) socket (clock w))
            (others_in socket room w')
       ++ [chat_joined socket (f_roomId d) (f_userId d)]
       ++ (if converts (f_userId d) then []
           else [chat_error socket "Failed to join chat room"])
  /\ (forall s,
         s ∈ others_in socket room w'
         <-> s ∈ members_of room w' /\ s ∉ members_of socket w')
  /\ ((socket, socket) ∈ membership w -> socket ∉ others_in socket room w')
  /\ table w' = table w.
Proof.
  intros Hr Hu Hroom. cbn zeta.
  rewrite (chat_join_accepted socket d room w Hr Hu Hroom). cbn zeta.
  set (w1 := run (join socket room) w).
  set (sent := outbox w ++ _).
  assert (Ho : forall room', others_in socket room' (set_outbox sent w1)
                             = others_in socket room' w1) by reflexivity.
  assert (Hmo : forall room', members_of room' (set_outbox sent w1)
                              = members_of room' w1) by reflexivity.
  rewrite !Ho, !Hmo. cbn [membership outbox table set_outbox].
  assert (Hm : forall s r,
             (s, r) ∈ membership w1
             <-> (s, r) ∈ membership w \/ (s, r) = (socket, room)).
  { intros s r. unfold w1. rewrite run_join_membership.
    case_bool_decide as Hin.
    - split; [by left|]. intros [?|[= -> ->]]; done.
    - rewrite elem_of_app, list_elem_of_singleton. done. }
  split; [apply elem_of_members_of, Hm; by right|].
  split; [exact Hm|].
  split.
  { intros Hin. unfold w1. rewrite run_join_membership.
    by rewrite bool_decide_eq_true_2. }
  split.
  { unfold sent, log_failure. cbn [forallb].
    rewrite (converts_of_toString _ _ Hroom), andb_true_r. done. }
  split; [intros s; apply elem_of_others_in|].
  split; [|apply (run_join_rest socket room w)].
  intros Hown Hin. apply elem_of_others_in in Hin as [_ Hout].
  apply Hout, elem_of_members_of, Hm. by left.
Qed.

Lemma chat_join_joins_witness :
  let d := event_data (JNum 7) (JObject None) JUndefined JUndefined
             JUndefined in
  let w' := run (ChatEvents.chat_join (str "A") (Some d)) two_in_r1 in
  str "A" ∈ members_of (str "7") w'
  /\ outbox w'
     = [chat_joined (str "A") (JNum 7) (JObject None);
        chat_error (str "A") "Failed to join chat room"].
Proof.
  intros d.
  pose proof (chat_join_joins (str "A") d (str "7") two_in_r1 eq_refl
                eq_refl eq_refl) as (H1 & _ & _ & H4 & _).
  split; [exact H1|exact H4].
Defined.

(** X12. A [chat:leave] request needs a [roomId] only.  Afterwards the
    socket is not a member of the room and no other membership has
    changed.  [chat:userLeft] is sent to the members left in the room that
    are not in the room named after the socket, never to the socket
    itself; then the socket is sent [chat:left], whether or not it was a
    member of the room and whether or not a [userId] was given, and after
    that [chat:error] as well when the [userId] cannot be turned into text
    for the log line.  Nothing is stored. *)
Theorem chat_leave_leaves socket d room w :
  truthy (f_roomId d) = true ->
  toString (f_roomId d) = Some room ->
  let w' := run (ChatEvents.chat_leave socket (Some d)) w in
  (socket ∉ members_of room w')
  /\ (forall s r,
         (s, r) ∈ membership w'
         <-> (s, r) ∈ membership w /\ (s, r) <> (socket, room))
  /\ outbox w'
     = outbox w
       ++ List.map (chat_userLeft (f_userId d) socket (clock w))
            (others_in socket room w')
       ++ [chat_left socket (f_roomId d) (f_userId d)]
       ++ (if converts (f_userId d) then []
           else [chat_error socket "Failed to leave chat room"])
  /\ (forall s,
         s ∈ others_in socket room w'
         <-> s ∈ members_of room w' /\ s ∉ members_of socket w')
  /\ (socket ∉ others_in socket room w')
  /\ table w' = table w.
Proof.
  intros Hr Hroom. cbn zeta.
  rewrite (chat_leave_accepted socket d room w Hr Hroom). cbn zeta.
  set (w1 := run (leave socket room) w).
  set (sent := outbox w ++ _).
  assert (Ho : forall room', others_in socket room' (set_outbox sent w1)
                             = others_in socket room' w1) by reflexivity.
  assert (Hmo : forall room', members_of room' (set_outbox sent w1)
                              = members_of room' w1) by reflexivity.
  rewrite !Ho, !Hmo. cbn [membership outbox table set_outbox].
  assert (Hm : forall s r,
             (s, r) ∈ membership w1
             <-> (s, r) ∈ membership w /\ (s, r) <> (socket, room)).
  { intros s r. unfold w1.
    rewrite run_leave_membership, !list_elem_of_In, filter_In.
    by rewrite negb_true_iff, bool_decide_eq_false. }
  assert (Hout : socket ∉ members_of room w1).
  { rewrite elem_of_members_of, Hm. by intros [_ ?]. }
  split; [exact Hout|].
  split; [exact Hm|].
  split.
  { unfold sent, log_failure. cbn [forallb].
    rewrite (converts_of_toString _ _ Hroom), andb_true_r. done. }
  split; [intros s; apply elem_of_others_in|].
  split; [|reflexivity].
  intros Hin. by apply elem_of_others_in in Hin as [? _].
Qed.

Lemma chat_leave_leaves_witness :
  let d := event_data (JStr (str "r1")) JUndefined JUndefined JUndefined
             JUndefined in
  let w' := run (ChatEvents.chat_leave (str "A") (Some d)) two_in_r1 in
  (str "A" ∉ members_of (str "r1") w')
  /\ outbox w'
     = [chat_userLeft JUndefined (str "A") 1000 (str "B");
        chat_left (str "A") (JStr (str "r1")) JUndefined].
Proof.
  intros d.
  pose proof (chat_leave_leaves (str "A") d (str "r1") two_in_r1 eq_refl
                eq_refl) as (H1 & _ & H3 & _).
  split; [exact H1|exact H3].
Defined.

(** X13. Joining a room and then leaving it puts the membership back as it
    was, when the socket was not in the room before. *)
Theorem chat_join_then_leave socket dj dl room w :
  truthy (f_roomId dj) = true ->
  truthy (f_userId dj) = true ->
  toString (f_roomId dj) = Some room ->
  truthy (f_roomId dl) = true ->
  toString (f_roomId dl) = Some room ->
  (socket, room) ∉ membership w ->
  membership
    (run (ChatEvents.chat_leave socket (Some dl))
       (run (ChatEvents.chat_join socket (Some dj)) w))
  = membership w.
Proof.
  intros Hr Hu Hroom Hr' Hroom' Hnot.
  rewrite (chat_leave_accepted socket dl room _ Hr' Hroom').
  rewrite (chat_join_accepted socket dj room w Hr Hu Hroom). cbn zeta.
  cbn [membership set_outbox]. rewrite run_leave_membership.
  cbn [membership set_outbox]. rewrite run_join_membership.
  rewrite bool_decide_eq_false_2 by done.
  by apply filter_out_appended.
Qed.

Lemma chat_join_then_leave_witness :
  let d := event_data (JStr (str "r2")) (JStr (str "alice")) JUndefined
             JUndefined JUndefined in
  membership
    (run (ChatEvents.chat_leave (str "A") (Some d))
       (run (ChatEvents.chat_join (str "A") (Some d)) two_in_r1))
  = membership two_in_r1.
Proof.
  intros d.
  refine (chat_join_then_leave (str "A") d d (str "r2") two_in_r1 eq_refl
            eq_refl eq_refl eq_refl eq_refl _).
  vm_compute. intros H. apply list_elem_of_In in H. simpl in H.
  repeat destruct H as [H|H]; try discriminate H. exact H.
Defined.

End JoiningAndLeaving.

(** ** Who receives a message *)

Section Receiving.

Import SocketIO.

Lemma chat_join_member socket d room w :
  truthy (f_roomId d) = true ->
  truthy (f_userId d) = true ->
  toString (f_roomId d) = Some room ->
  socket ∈ members_of room (run (ChatEvents.chat_join socket (Some d)) w).
Proof.
  intros Hr Hu Hroom.
  rewrite (chat_join_accepted socket d room w Hr Hu Hroom). cbn zeta.
  apply elem_of_members_of. cbn [membership set_outbox].
  rewrite run_join_membership. case_bool_decide; [done|].
  apply elem_of_app. right. by apply list_elem_of_singleton.
Qed.

(** X14. A socket that has joined a room receives the messages sent to the
    room afterwards: when [listener] has joined the room and [sender] then
    sends a message that is in order and that the store takes, [listener]
    gets [chat:receive] with the stored row and the sender's socket. *)
Theorem chat_join_then_send listener dj sender ds s room w :
  truthy (f_roomId dj) = true ->
  truthy (f_userId dj) = true ->
  toString (f_roomId dj) = Some room ->
  let w1 := run (ChatEvents.chat_join listener (Some dj)) w in
  let row :=
    chatModel.new_row (f_roomId ds) (f_userId ds) (JStr (trim s)) w1 in
  truthy (f_roomId ds) = true ->
  truthy (f_userId ds) = true ->
  f_message ds = JStr s ->
  1 <= length (trim s) <= 1000 ->
  accepts_insert (engine w1) row = true ->
  toString (f_roomId ds) = Some room ->
  chat_receive row sender listener
  ∈ outbox (run (ChatEvents.chat_send sender (Some ds)) w1).
Proof.
  intros Hr Hu Hroom w1 row Hr' Hu' Hm Hl Hacc Hroom'.
  rewrite (chat_send_accepted sender ds s room w1) by done.
  cbn zeta. cbn [outbox set_outbox].
  apply elem_of_app. right. apply elem_of_app. left.
  apply list_elem_of_In, in_map, list_elem_of_In.
  by apply chat_join_member.
Qed.

Lemma chat_join_then_send_witness :
  let dj := event_data (JStr (str "r1")) (JStr (str "carol")) JUndefined
              JUndefined JUndefined in
  let ds := event_data (JStr (str "r1")) (JStr (str "alice"))
              (JStr (str "hello")) JUndefined JUndefined in
  let w1 := run (ChatEvents.chat_join (str "C") (Some dj)) two_in_r1 in
  chat_receive
    (chatModel.new_row (JStr (str "r1")) (JStr (str "alice"))
       (JStr (str "hello")) w1) (str "A") (str "C")
  ∈ outbox (run (ChatEvents.chat_send (str "A") (Some ds)) w1).
Proof.
  intros dj ds w1.
  assert (Hl : 1 <= length (trim (str "hello")) <= 1000) by (vm_compute; lia).
  exact (chat_join_then_send (str "C") dj (str "A") ds (str "hello")
           (str "r1") two_in_r1 eq_refl eq_refl eq_refl eq_refl eq_refl
           eq_refl Hl eq_refl eq_refl).
Defined.

(** X15. A message that is accepted goes to the members of the room, once
    each, and to nobody else.  The only thing sent besides is [chat:error]
    to the sender, after the message has gone out, when the [userId]
    cannot be turned into text for the log line.  So a sender that is not
    a member of the room gets no [chat:receive]: nothing at all when its
    [userId] can be printed, and otherwise the error alone, although its
    message was stored and delivered. *)
Theorem chat_send_reaches_members_only sender d s room w :
  truthy (f_roomId d) = true ->
  truthy (f_userId d) = true ->
  f_message d = JStr s ->
  1 <= length (trim s) <= 1000 ->
  accepts_insert (engine w)
    (chatModel.new_row (f_roomId d) (f_userId d) (JStr (trim s)) w) = true ->
  toString (f_roomId d) = Some room ->
  let w' := run (ChatEvents.chat_send sender (Some d)) w in
  exists sent,
    outbox w'
    = outbox w ++ sent
      ++ (if converts (f_userId d) then []
          else [chat_error sender "Failed to send message"])
    /\ List.map recipient sent = members_of room w
    /\ Forall (fun x => event x = "chat:receive") sent
    /\ (sender ∉ members_of room w ->
        Forall (fun x => recipient x <> sender) sent)
    /\ table w'
       = table w
         ++ [chatModel.new_row (f_roomId d) (f_userId d) (JStr (trim s)) w].
Proof.
  intros Hr Hu Hm Hl Hacc Hroom.
  rewrite (chat_send_accepted sender d s room w) by done.
  cbn zeta. cbn [outbox table set_outbox set_table].
  eexists. split; [reflexivity|].
  split; [|split; [|split]].
  - rewrite map_map. simpl. apply map_id.
  - apply Forall_forall. intros x Hx.
    apply list_elem_of_In, in_map_iff in Hx as (m & <- & _). done.
  - intros Hnot. apply Forall_forall. intros x Hx.
    apply list_elem_of_In, in_map_iff in Hx as (m & <- & Hin).
    simpl. intros ->. apply Hnot. by apply list_elem_of_In.
  - reflexivity.
Qed.

Lemma chat_send_reaches_members_only_witness :
  let d := event_data (JStr (str "r1")) (JObject None)
             (JStr (str "hello")) JUndefined JUndefined in
  exists sent,
    outbox (run (ChatEvents.chat_send (str "Z") (Some d)) two_in_r1)
    = outbox two_in_r1 ++ sent
      ++ [chat_error (str "Z") "Failed to send message"]
    /\ List.map recipient sent = [str "A"; str "B"].
Proof.
  intros d.
  assert (Hl : 1 <= length (trim (str "hello")) <= 1000) by (vm_compute; lia).
  destruct (chat_send_reaches_members_only (str "Z") d (str "hello")
              (str "r1") two_in_r1 eq_refl eq_refl eq_refl Hl eq_refl
              eq_refl) as (sent & Ho & Hr & _).
  exists sent. split; [exact Ho|exact Hr].
Defined.

(** X16. A message can be stored and yet reported as failed: when [roomId]
    is an object whose [toString()] throws, the message is stored, after
    which naming the room to send to throws; the sender gets [chat:error]
    "Failed to send message" and nobody gets [chat:receive]. *)
Theorem chat_send_stored_then_failed sender d s w :
  truthy (f_roomId d) = true ->
  truthy (f_userId d) = true ->
  f_message d = JStr s ->
  1 <= length (trim s) <= 1000 ->
  accepts_insert (engine w)
    (chatModel.new_row (f_roomId d) (f_userId d) (JStr (trim s)) w) = true ->
  toString (f_roomId d) = None ->
  let w' := run (ChatEvents.chat_send sender (Some d)) w in
  table w'
  = table w ++ [chatModel.new_row (f_roomId d) (f_userId d) (JStr (trim s)) w]
  /\ outbox w' = outbox w ++ [chat_error sender "Failed to send message"].
Proof.
  intros Hr Hu Hm Hl Hacc Hroom. cbn zeta.
  rewrite chat_send_outcome, sendMessage_outcome, Hr, Hu, Hm.
  assert (Hs : s <> []) by (apply nonempty_of_trim; lia).
  destruct s as [|u s]; [done|]. cbn [truthy negb orb].
  replace (length (trim (u :: s)) =? 0)%nat with false
    by (symmetry; apply Nat.eqb_neq; lia).
  replace (1000 <? length (trim (u :: s)))%nat with false
    by (symmetry; apply Nat.ltb_ge; lia).
  cbn zeta. rewrite Hacc, Hroom. done.
Qed.

Lemma chat_send_stored_then_failed_witness :
  let d := event_data (JObject None) (JStr (str "alice")) (JStr (str "hello"))
             JUndefined JUndefined in
  let w' := run (ChatEvents.chat_send (str "A") (Some d)) two_in_r1 in
  table w'
  = table two_in_r1
    ++ [chatModel.new_row (JObject None) (JStr (str "alice"))
          (JStr (str "hello")) two_in_r1]
  /\ outbox w'
     = outbox two_in_r1 ++ [chat_error (str "A") "Failed to send message"].
Proof.
  intros d.
  assert (Hl : 1 <= length (trim (str "hello")) <= 1000) by (vm_compute; lia).
  exact (chat_send_stored_then_failed (str "A") d (str "hello") two_in_r1
           eq_refl eq_refl eq_refl Hl eq_refl eq_refl).
Defined.

End Receiving.

(** ** Reading the history *)

Section HistoryFurther.

Import SocketIO.

(** [ChatService.getChatHistory], case by case. *)
Lemma getChatHistory_outcome roomId limit offset w :
  ChatService.getChatHistory roomId limit offset w =
    let limit := default_param (JNum 50) limit in
    let offset := default_param (JNum 0) offset in
    if negb (truthy roomId)
    then Returned (HistoryFailed "roomId is required") w
    else
      let asked :=
        set_queries (queries w ++ [SelectMessages roomId limit offset]) w in
      match answer_select (engine w) (table w) roomId limit offset with
      | Some rows => Returned (HistoryOk rows (length rows)) asked
      | None => Returned (HistoryFailed "Failed to retrieve chat history") asked
      end.
Proof.
  unfold ChatService.getChatHistory, chatModel.getMessagesByRoom, try_catch,
    bind, ret. cbn zeta.
  destruct (negb (truthy roomId)); [reflexivity|].
  rewrite !default_param_idem.
  by destruct (answer_select _ _ _ _ _).
Qed.

(** X17. Whatever the payload, [chat:getHistory] sends exactly one event,
    to the caller: [chat:history] or [chat:error]; it adds no row, changes
    no membership, and asks the store at most one question. *)
Theorem chat_getHistory_answers_caller socket data w :
  let w' := run (ChatEvents.chat_getHistory socket data) w in
  (exists x,
      outbox w' = outbox w ++ [x]
      /\ recipient x = socket
      /\ (event x = "chat:history" \/ event x = "chat:error"))
  /\ table w' = table w
  /\ membership w' = membership w
  /\ (queries w' = queries w
      \/ exists roomId limit offset,
           queries w' = queries w ++ [SelectMessages roomId limit offset]).
Proof.
  cbn zeta. rewrite chat_getHistory_outcome. cbn zeta.
  destruct (negb (truthy (f_roomId (default no_fields data)))).
  - repeat split; [eexists; repeat split; by right|by left].
  - destruct (answer_select _ _ _ _ _);
      (repeat split; [eexists; repeat split; (by left) || (by right)
                     |right; by do 3 eexists]).
Qed.


(** X19. [getChatHistory] never throws and never writes; the [count] it
    reports is the number of rows it returns, and its only errors are
    "roomId is required" and "Failed to retrieve chat history".
    [fetchChatHistory] asks the store for the room with limit 50 and
    offset 0 and returns the rows the store answers; it throws exactly
    when the room is missing or the store rejects the query. *)
Theorem history_service roomId w :
  (forall limit offset,
      match ChatService.getChatHistory roomId limit offset w with
      | Returned (HistoryOk data count) w' =>
          count = length data /\ table w' = table w /\ outbox w' = outbox w
      | Returned (HistoryFailed error) w' =>
          table w' = table w /\ outbox w' = outbox w
          /\ (error = "roomId is required"
              \/ error = "Failed to retrieve chat history")
      | Thrown _ => False
      end)
  /\ ChatService.fetchChatHistory roomId w
     = if truthy roomId
       then
         let asked :=
           set_queries
             (queries w ++ [SelectMessages roomId (JNum 50) (JNum 0)]) w in
         match answer_select (engine w) (table w) roomId (JNum 50) (JNum 0)
         with
         | Some rows => Returned rows asked
         | None => Thrown asked
         end
       else Thrown w.
Proof.
  split.
  - intros limit offset. rewrite getChatHistory_outcome. cbn zeta.
    destruct (negb (truthy roomId)); [repeat split; by left|].
    destruct (answer_select _ _ _ _ _); repeat split; by right.
  - unfold ChatService.fetchChatHistory, bind.
    rewrite getChatHistory_outcome. cbn zeta. cbn [default_param].
    destruct (truthy roomId); [|reflexivity]. cbn [negb].
    by destruct (answer_select _ _ _ _ _).
Qed.

(** X20. [getMessages] as the routes call it.  Nothing in the program
    sets [req.query], so the limit and the offset a client writes in the
    URL are not read: for a room that is named the store is asked for
    limit 50 and offset 0, and the answer is 200 with the rows and their
    count, or 400 when the store rejects the query.  Without a room the
    answer is 400 and the store is not asked.  The answer is never 500,
    nothing is written and nothing is sent to any socket. *)
Theorem getMessages_forwards roomId w :
  ChatController.getMessages roomId None w
  = (if truthy roomId
     then
       let asked :=
         set_queries
           (queries w ++ [SelectMessages roomId (JNum 50) (JNum 0)]) w in
       match answer_select (engine w) (table w) roomId (JNum 50) (JNum 0)
       with
       | Some rows =>
           Returned {| history_status := 200;
                       history_body := HistoryOk rows (length rows) |} asked
       | None =>
           Returned
             {| history_status := 400;
                history_body :=
                  HistoryFailed "Failed to retrieve chat history" |}
             asked
       end
     else
       Returned {| history_status := 400;
                   history_body := HistoryFailed "roomId is required" |} w)
  /\ (forall response w',
         ChatController.getMessages roomId None w = Returned response w' ->
         table w' = table w /\ outbox w' = outbox w
         /\ membership w' = membership w
         /\ history_status response <> 500%Z)
  /\ (forall w', ChatController.getMessages roomId None w <> Thrown w').
Proof.
  assert (H : ChatController.getMessages roomId None w
              = if truthy roomId
                then
                  let asked :=
                    set_queries
                      (queries w
                       ++ [SelectMessages roomId (JNum 50) (JNum 0)]) w in
                  match answer_select (engine w) (table w) roomId (JNum 50)
                          (JNum 0)
                  with
                  | Some rows =>
                      Returned {| history_status := 200;
                                  history_body :=
                                    HistoryOk rows (length rows) |} asked
                  | None =>
                      Returned
                        {| history_status := 400;
                           history_body :=
                             HistoryFailed
                               "Failed to retrieve chat history" |}
                        asked
                  end
                else
                  Returned {| history_status := 400;
                              history_body :=
                                HistoryFailed "roomId is required" |} w).
  { unfold ChatController.getMessages, try_catch, bind.
    change (default (JUndefined, JUndefined) None)
      with (JUndefined, JUndefined).
    cbn iota. cbn [truthy]. unfold ret at 1 2.
    rewrite getChatHistory_outcome. cbn zeta.
    destruct (truthy roomId); cbn [negb default_param]; [|reflexivity].
    by destruct (answer_select _ _ _ _ _). }
  split; [exact H|]. rewrite H. clear H.
  split.
  - intros response w'. cbn zeta.
    destruct (truthy roomId); [destruct (answer_select _ _ _ _ _)|];
      intros [= <- <-]; by repeat split.
  - intros w'. cbn zeta.
    by destruct (truthy roomId); [destruct (answer_select _ _ _ _ _)|].
Qed.

End HistoryFurther.

(** ** Pagination parameters *)

Section PaginationFurther.

Import ValidationMiddleware.

Lemma validatePagination_given limit offset n m :
  limit <> JUndefined -> offset <> JUndefined ->
  parseInt limit = Normal (Some n) -> (1 <= n <= 100)%Z ->
  parseInt offset = Normal (Some m) -> (0 <= m)%Z ->
  validatePagination limit offset = Normal (IsValid (n, m)).
Proof.
  intros Hl Ho Hpl Hn Hpo Hm. unfold validatePagination. cbn zeta.
  replace (n <? 1)%Z with false in * by (symmetry; apply Z.ltb_ge; lia).
  destruct limit; try done; rewrite Hpl;
    replace (n <? 1)%Z with false by (symmetry; apply Z.ltb_ge; lia);
    replace (100 <? n)%Z with false by (symmetry; apply Z.ltb_ge; lia);
    destruct offset; try done; rewrite Hpo;
    by replace (m <? 0)%Z with false by (symmetry; apply Z.ltb_ge; lia).
Qed.

Lemma validatePagination_default_limit offset m :
  offset <> JUndefined ->
  parseInt offset = Normal (Some m) -> (0 <= m)%Z ->
  validatePagination JUndefined offset = Normal (IsValid (50%Z, m)).
Proof.
  intros Ho Hpo Hm. unfold validatePagination. cbn zeta.
  destruct offset; try done; rewrite Hpo;
    by replace (m <? 0)%Z with false by (symmetry; apply Z.ltb_ge; lia).
Qed.

Lemma validatePagination_default_offset limit n :
  limit <> JUndefined ->
  parseInt limit = Normal (Some n) -> (1 <= n <= 100)%Z ->
  validatePagination limit JUndefined = Normal (IsValid (n, 0%Z)).
Proof.
  intros Hl Hpl Hn. unfold validatePagination. cbn zeta.
  destruct limit; try done; rewrite Hpl;
    replace (n <? 1)%Z with false by (symmetry; apply Z.ltb_ge; lia);
    by replace (100 <? n)%Z with false by (symmetry; apply Z.ltb_ge; lia).
Qed.

(** X21. [validatePagination] succeeds with limit [n] and offset [m]
    exactly when the limit is absent and [n] is 50, or is given, parses to
    [n] and [n] lies in [1,100], and the offset is absent and [m] is 0, or
    is given, parses to [m] and [m] is not negative.  Parsing reads the
    number a text starts with, so ["10 rows"] is the limit 10; a number is
    parsed from the text it is written as, so the number [1e21], written
    [1e+21], is the limit 1; and what is parsed is a double, so the offset
    ["9007199254740993"] is 9007199254740992. *)
Theorem validatePagination_accepts limit offset n m :
  (validatePagination limit offset = Normal (IsValid (n, m))
   <-> ((1 <= n <= 100)%Z
        /\ (limit = JUndefined /\ n = 50%Z
            \/ limit <> JUndefined /\ parseInt limit = Normal (Some n)))
       /\ ((0 <= m)%Z
           /\ (offset = JUndefined /\ m = 0%Z
               \/ offset <> JUndefined /\ parseInt offset = Normal (Some m))))
  /\ validatePagination (JStr (str "10 rows")) JUndefined
     = Normal (IsValid (10%Z, 0%Z))
  /\ validatePagination (JNum (10 ^ 21)) JUndefined
     = Normal (IsValid (1%Z, 0%Z))
  /\ validatePagination JUndefined (JStr (str "9007199254740993"))
     = Normal (IsValid (50%Z, 9007199254740992%Z))
  /\ validatePagination (JNum (10 ^ 20)) JUndefined
     = Normal (NotValid "limit cannot exceed 100").
Proof.
  split; [|by vm_compute].
  split.
  - intros H. apply validatePagination_valid in H as (? & ? & ? & ?). done.
  - intros [[Hn [[-> ->]|[Hl Hpl]]] [Hm [[-> ->]|[Ho Hpo]]]].
    + reflexivity.
    + by apply validatePagination_default_limit.
    + by apply validatePagination_default_offset.
    + by apply validatePagination_given.
Qed.

End PaginationFurther.
